(** * Smart Reading Companion: content script, shallow embedding

    The content script exists in three iterations: [content.js] (the
    Reddit-aware extractor chain), the second document of [content.js]
    (the toggle-aware simple extractor) and the shadow-DOM variant with
    the self-relocating button.  Each function below is transcribed from
    one of them and says which.

    JavaScript strings are modelled as lists of 8-bit code units
    ([list ascii]); the development therefore speaks about strings whose
    code units lie in the Latin-1 range.  The DOM is abstracted to what
    the script reads from it: the rendered text of the elements a
    selector matches, in document order. *)

From Stdlib Require Import List String Ascii NArith ZArith QArith Bool Lia.
From Stdlib Require Import DecimalString.
Import ListNotations.

Set Warnings "-register-all".

(* ------------------------------------------------------------------ *)
(** ** Strings *)

Module Js.

Definition jsstring := list ascii.

Definition lit (s : string) : jsstring := list_ascii_of_string s.
Coercion lit : string >-> jsstring.

Definition code (c : ascii) : N := N_of_ascii c.

(** [\s] of a regular expression and the set stripped by [trim()],
    restricted to one-byte code units: TAB, LF, VT, FF, CR, SPACE, NBSP. *)
Definition is_ws (c : ascii) : bool :=
  ((9 <=? code c) && (code c <=? 13) || (code c =? 32) || (code c =? 160))%N.

Definition nl : ascii := ascii_of_N 10.
Definition sp : ascii := ascii_of_N 32.
Definition nbsp : ascii := ascii_of_N 160.

Definition is_nl (c : ascii) : bool := Ascii.eqb c nl.

(** [String.prototype.toLowerCase] on one code unit: A-Z and the Latin-1
    capitals (U+00C0..U+00DE without the multiplication sign). *)
Definition lower_char (c : ascii) : ascii :=
  let n := code c in
  if ((65 <=? n) && (n <=? 90))%N then ascii_of_N (n + 32)
  else if ((192 <=? n) && (n <=? 222) && negb (n =? 215))%N then ascii_of_N (n + 32)
  else c.

Definition toLowerCase (s : jsstring) : jsstring := map lower_char s.

Fixpoint startsWith (s p : jsstring) {struct p} : bool :=
  match p, s with
  | [], _ => true
  | _ :: _, [] => false
  | a :: p', b :: s' => Ascii.eqb a b && startsWith s' p'
  end.

(** [s.includes(p)]: [p] occurs at some index of [s]. *)
Fixpoint includes (s p : jsstring) : bool :=
  startsWith s p ||
  match s with
  | [] => false
  | _ :: s' => includes s' p
  end.

Fixpoint dropWhile (f : ascii -> bool) (s : jsstring) : jsstring :=
  match s with
  | [] => []
  | c :: s' => if f c then dropWhile f s' else s
  end.

Definition trimStart (s : jsstring) : jsstring := dropWhile is_ws s.
Definition trimEnd (s : jsstring) : jsstring := rev (dropWhile is_ws (rev s)).
Definition trim (s : jsstring) : jsstring := trimEnd (trimStart s).

(** [parts.join(sep)] *)
Fixpoint join (sep : jsstring) (parts : list jsstring) : jsstring :=
  match parts with
  | [] => []
  | [p] => p
  | p :: rest => p ++ sep ++ join sep rest
  end.

(** JavaScript truthiness of a string. *)
Definition truthy (s : jsstring) : bool :=
  match s with [] => false | _ => true end.

End Js.
Import Js.

Close Scope Q_scope.
Open Scope string_scope.
Open Scope list_scope.
Open Scope nat_scope.

(* ------------------------------------------------------------------ *)
(** ** Helpers of [content.js] *)

(** [isNoiseParagraph] (content.js:26-35). *)
Definition isNoiseParagraph (text : jsstring) : bool :=
  let t := toLowerCase text in
  includes t "i am a bot" ||
  includes t "performed automatically" ||
  includes t "contact the moderators" ||
  includes t "shortstories is a place for" ||
  (includes t "rules" && includes t "report" && includes t "moderators").

(** [escapeHtml] (content.js:231-235, part_000:107-111): a global
    [replace] over the character class of ampersand, angle brackets,
    double quote and apostrophe, whose callback looks the character up
    in the entity table. *)
Definition quot : ascii := ascii_of_N 34.
Definition apos : ascii := ascii_of_N 39.

Definition entity (c : ascii) : option jsstring :=
  if Ascii.eqb c "&" then Some (lit "&amp;")
  else if Ascii.eqb c "<" then Some (lit "&lt;")
  else if Ascii.eqb c ">" then Some (lit "&gt;")
  else if Ascii.eqb c quot then Some (lit "&quot;")
  else if Ascii.eqb c apos then Some (lit "&#39;")
  else None.

Fixpoint escapeHtml (s : jsstring) : jsstring :=
  match s with
  | [] => []
  | c :: s' =>
      match entity c with
      | Some e => e ++ escapeHtml s'
      | None => c :: escapeHtml s'
      end
  end.

(** The header markup built by [showOverlay] (content.js:192-194); the
    dash of the template is carried as its UTF-8 bytes. *)
Definition headerHtml (title : jsstring) : jsstring :=
  lit "<div>Summary — " ++ escapeHtml title ++ lit "</div>".

(* ------------------------------------------------------------------ *)
(** ** Regular-expression rewrites used by the extractor *)

(** The global rewrite of [\n{3,}] to two newlines: the scanner counts
    the newlines of the run it is in ([k]); when the run ends it is
    written back as it was if shorter than three and as two newlines
    otherwise. *)
Definition flush_nl (k : nat) : jsstring :=
  if 3 <=? k then [nl; nl] else repeat nl k.

Fixpoint collapseNewlines_from (k : nat) (s : jsstring) : jsstring :=
  match s with
  | [] => flush_nl k
  | c :: s' =>
      if is_nl c then collapseNewlines_from (S k) s'
      else flush_nl k ++ c :: collapseNewlines_from 0 s'
  end.

Definition collapseNewlines (s : jsstring) : jsstring :=
  collapseNewlines_from 0 s.

(** The global rewrite of [\s+] to one space: every maximal whitespace
    run becomes one space; [inrun] says that the space of the current
    run is written. *)
Fixpoint collapseSpaces_from (inrun : bool) (s : jsstring) : jsstring :=
  match s with
  | [] => []
  | c :: s' =>
      if is_ws c
      then (if inrun then collapseSpaces_from true s'
            else sp :: collapseSpaces_from true s')
      else c :: collapseSpaces_from false s'
  end.

Definition collapseSpaces (s : jsstring) : jsstring :=
  collapseSpaces_from false s.

(** The length the chain compares with its thresholds:
    the length of the text after that rewrite. *)
Definition normalizedLength (s : jsstring) : nat :=
  List.length (collapseSpaces s).

(** The global rewrite of U+00A0 to a space. *)
Definition replaceNbsp (s : jsstring) : jsstring :=
  map (fun c => if Ascii.eqb c nbsp then sp else c) s.

(** The global rewrite of [\s+\n] to one newline.  A match lies inside
    one maximal whitespace run: the greedy [\s+] starts at the head of
    the run and backtracks to the last newline of the run that is not
    its head; the run is then written as a newline followed by what came
    after that newline.  A run with no such newline is left as it is. *)
Fixpoint after_last_nl (s : jsstring) : jsstring :=
  match s with
  | [] => []
  | c :: s' =>
      if existsb is_nl s' then after_last_nl s'
      else if is_nl c then s' else s
  end.

Definition rewrite_run (run : jsstring) : jsstring :=
  match run with
  | [] => []
  | _ :: r' => if existsb is_nl r' then nl :: after_last_nl r' else run
  end.

Fixpoint stripSpaceBeforeNewline_from (run s : jsstring) : jsstring :=
  match s with
  | [] => rewrite_run run
  | c :: s' =>
      if is_ws c then stripSpaceBeforeNewline_from (run ++ [c]) s'
      else rewrite_run run ++ c :: stripSpaceBeforeNewline_from [] s'
  end.

Definition stripSpaceBeforeNewline (s : jsstring) : jsstring :=
  stripSpaceBeforeNewline_from [] s.

(** The last statement of [extractArticleText] before its return
    (content.js:159). *)
Definition finalNormalize (text : jsstring) : jsstring :=
  trim (collapseNewlines (stripSpaceBeforeNewline (replaceNbsp text))).

(** [s.endsWith(p)] *)
Definition endsWith (s p : jsstring) : bool := startsWith (rev s) (rev p).

(** Deleting the first match of [ : reddit.*$] (case-insensitive) from
    the document title: the match starts at the leftmost index at which
    the literal matches and from which no line terminator follows up to
    the end of the string. *)
Definition is_line_terminator (c : ascii) : bool :=
  ((code c =? 10) || (code c =? 13))%N.

Fixpoint stripRedditSuffix (s : jsstring) : jsstring :=
  match s with
  | [] => []
  | c :: s' =>
      if startsWith (toLowerCase s) " : reddit"
         && negb (existsb is_line_terminator (skipn 9 s))
      then []
      else c :: stripRedditSuffix s'
  end.

(* ------------------------------------------------------------------ *)
(** ** The page as the script reads it *)

(** A container is seen through
    [querySelectorAll] over p, li, h2, h3, h4, blockquote and pre: the
    [innerText] of each matched element, in document order. *)
Definition Container := list jsstring.

(** [collectText] (content.js:37-45); [None] is a falsy container. *)
Definition collectText (container : option Container) : jsstring :=
  match container with
  | None => []
  | Some els =>
      let parts :=
        filter (fun s => truthy s && negb (isNoiseParagraph s)) (map trim els) in
      trim (collapseNewlines (join [nl; nl] parts))
  end.

Inductive JsError : Type :=
| Error (message : jsstring)
| TypeError (message : jsstring)
| SyntaxError (message : jsstring).

Inductive ReadabilityOutcome : Type :=
| ParseThrows (e : JsError)
| ParseNull
| ParseArticle (title : option jsstring) (textContent : option jsstring).

(** What the shadow root of the shreddit-post element offers; both
    fields are [None] when the element has no open shadow root. *)
Record ShadowPost : Type := {
  rich_body : option Container;   (* [slot=text-body], [data-click-id=text] *)
  shadow_h1 : option jsstring
}.

Record Page : Type := {
  hostname : jsstring;
  docTitle : jsstring;
  h1_text : option jsstring;            (* querySelector('h1')?.innerText *)
  post_content : option Container;      (* data-test-id / data-click-id post body *)
  shreddit_post : option ShadowPost;    (* None: no custom element on the page *)
  usertext_md : option Container;       (* .usertext-body .md *)
  old_title : option jsstring;          (* a.title *)
  main_region : option Container;       (* main, [role=main] *)
  candidates : list Container;          (* the candidate Set, insertion order *)
  readability : ReadabilityOutcome;     (* new Readability(clone).parse() *)
  simple_main : jsstring                (* innerText of article/main/body *)
}.

Record ExtractionResult : Type := { title : jsstring; text : jsstring }.

(** [a || b] on strings and on optional strings. *)
Definition orElse (a b : jsstring) : jsstring := if truthy a then a else b.
Definition optStr (o : option jsstring) : jsstring :=
  match o with Some s => s | None => [] end.

(* ------------------------------------------------------------------ *)
(** ** Effects: a trace of what the script does, and exceptions *)

Inductive JsValue : Type :=
| VUndefined
| VNull
| VBool (b : bool)
| VNum (q : Q)
| VStr (s : jsstring)
| VArr (items : list JsValue)
| VObj (fields : list (jsstring * JsValue)).

(** The body handed to [JSON.stringify] for the POST. *)
Record Request : Type := {
  req_text : jsstring;
  req_ratio : option Q;
  req_level : option jsstring
}.

Inductive Event : Type :=
| EvSleep (ms : Z)                 (* await of a setTimeout promise *)
| EvExpandCollapsers               (* expandCollapsers() *)
| EvExtractReddit                  (* extractReddit() *)
| EvLargestTextBlock               (* largestTextBlock() *)
| EvReadability                    (* new Readability(clone).parse() *)
| EvFetch (req : Request)          (* fetch(.../summarize) *)
| EvShowOverlay (headerInnerHTML : jsstring) (body : JsValue)
| EvButtonBusy                     (* label replaced, disabled = true *)
| EvButtonRestored.                (* label restored, disabled = false *)

Inductive Outcome (A : Type) : Type :=
| Return (a : A)
| Throw (e : JsError).
Arguments Return {A} a.
Arguments Throw {A} e.

Module Eff.

Definition M (A : Type) : Type := (list Event * Outcome A)%type.

Definition ret {A} (a : A) : M A := ([], Return a).
Definition throw {A} (e : JsError) : M A := ([], Throw e).
Definition emit (ev : Event) : M unit := ([ev], Return tt).

Definition bind {A B} (m : M A) (k : A -> M B) : M B :=
  match m with
  | (tr, Return a) => let (tr', o) := k a in (tr ++ tr', o)
  | (tr, Throw e) => (tr, Throw e)
  end.

(** [try { m } catch (e) { h e }] *)
Definition tryCatch {A} (m : M A) (h : JsError -> M A) : M A :=
  match m with
  | (tr, Return a) => (tr, Return a)
  | (tr, Throw e) => let (tr', o) := h e in (tr ++ tr', o)
  end.

(** [try { m } finally { f }] *)
Definition finally {A} (m : M A) (f : M unit) : M A :=
  match m, f with
  | (tr, o), (tr', Return _) => (tr ++ tr', o)
  | (tr, _), (tr', Throw e) => (tr ++ tr', Throw e)
  end.

(** A synchronous call that is recorded: [ev], then the value. *)
Definition call {A} (ev : Event) (v : A) : M A := ([ev], Return v).

Definition trace {A} (m : M A) : list Event := fst m.
Definition outcome {A} (m : M A) : Outcome A := snd m.

End Eff.
Import Eff.

Notation "x <- m ;; k" := (bind m (fun x => k))
  (at level 61, m at next level, right associativity).
Notation "m ;;; k" := (bind m (fun _ => k))
  (at level 61, right associativity).

(* ------------------------------------------------------------------ *)
(** ** Extraction ([content.js]) *)

(** [largestTextBlock] (content.js:63-85): the loop over the candidate
    set; a candidate replaces the best one only when strictly longer. *)
Record Best : Type := { bestEl : option nat; bestLen : nat; bestText : jsstring }.

Fixpoint scanCandidates (i : nat) (cs : list Container) (b : Best) : Best :=
  match cs with
  | [] => b
  | el :: rest =>
      let t := collectText (Some el) in
      let len := normalizedLength t in
      scanCandidates (S i) rest
        (if bestLen b <? len
         then {| bestEl := Some i; bestLen := len; bestText := t |}
         else b)
  end.

Definition largestTextBlock (pg : Page) : Best :=
  scanCandidates 0 (candidates pg)
    {| bestEl := None; bestLen := 0; bestText := [] |}.

(** [extractReddit] (content.js:88-120). *)
Definition extractReddit (pg : Page) : ExtractionResult :=
  let title0 :=
    orElse (trim (optStr (h1_text pg))) (trim (stripRedditSuffix (docTitle pg))) in
  let text0 :=
    match post_content pg with
    | Some c => collectText (Some c)
    | None => []
    end in
  let '(title1, text1) :=
    if negb (truthy text0) then
      match shreddit_post pg with
      | Some root =>
          (if negb (truthy title0)
           then orElse (trim (optStr (shadow_h1 root))) title0
           else title0,
           match rich_body root with
           | Some rich => collectText (Some rich)
           | None => text0
           end)
      | None => (title0, text0)
      end
    else (title0, text0) in
  let '(title2, text2) :=
    if negb (truthy text1) then
      (if negb (truthy title1)
       then match old_title pg with Some t => trim t | None => title1 end
       else title1,
       match usertext_md pg with
       | Some md => collectText (Some md)
       | None => text1
       end)
    else (title1, text1) in
  let text3 :=
    if negb (truthy text2) then collectText (main_region pg) else text2 in
  {| title := orElse title2 (docTitle pg); text := text3 |}.

Definition ExtractionFailed : JsError :=
  Error "Could not extract article content on this page.".

(** The body of the Readability block of the chain (content.js:145-153):
    every exception of the block is swallowed. *)
Definition readabilityStep (pg : Page) (title text : jsstring)
  : jsstring * jsstring :=
  match readability pg with
  | ParseArticle atitle (Some tc) =>
      if truthy tc then
        let title' := trim (orElse (optStr atitle) (orElse title (docTitle pg))) in
        let t := trim tc in
        (title', if List.length text <? List.length t then t else text)
      else (title, text)
  | _ => (title, text)
  end.

(** [extractArticleText] (content.js:123-161), in two parts: the
    strategies, which leave a title and a text (lines 124-154), and the
    closing statements (lines 156-160). *)
Definition strategies (pg : Page) : M (jsstring * jsstring) :=
  emit (EvSleep 300) ;;;
  emit EvExpandCollapsers ;;;
  r <- (if endsWith (hostname pg) "reddit.com"
        then r <- call EvExtractReddit (extractReddit pg) ;;
             ret (title r, text r)
        else ret ([], [])) ;;
  let '(title, text) := r in
  text <- (if negb (truthy text) || (normalizedLength text <? 800)
           then big <- call EvLargestTextBlock (largestTextBlock pg) ;;
                ret (if truthy (bestText big)
                        && (List.length text <? List.length (bestText big))
                     then bestText big else text)
           else ret text) ;;
  if negb (truthy text) || (normalizedLength text <? 400)
  then call EvReadability (readabilityStep pg title text)
  else ret (title, text).

Definition extractArticleText (pg : Page) : M ExtractionResult :=
  r <- strategies pg ;;
  let '(title, text) := r in
  let title := if negb (truthy title) then docTitle pg else title in
  if negb (truthy text) then throw ExtractionFailed
  else ret {| title := title; text := finalNormalize text |}.

(** [extractArticleText] of the shadow-DOM variant (part_000:20-28):
    an exception of Readability is not caught here. *)
Definition extractArticleText_readability (pg : Page) : M ExtractionResult :=
  emit (EvSleep 400) ;;;
  emit EvReadability ;;;
  match readability pg with
  | ParseThrows e => throw e
  | ParseArticle atitle (Some tc) =>
      if truthy tc
      then ret {| title := orElse (optStr atitle) (docTitle pg); text := trim tc |}
      else throw ExtractionFailed
  | _ => throw ExtractionFailed
  end.

(** [extractSimple] (content.js:301-317). *)
Definition extractSimple (pg : Page) : M ExtractionResult :=
  emit EvReadability ;;;
  let '(title, text) :=
    match readability pg with
    | ParseArticle atitle tc =>
        (if truthy (optStr atitle) then optStr atitle else docTitle pg,
         if truthy (optStr tc) then trim (optStr tc) else [])
    | _ => (docTitle pg, [])
    end in
  let text := if negb (truthy text) then trim (simple_main pg) else text in
  ret {| title := title; text := text |}.

(* ------------------------------------------------------------------ *)
(** ** Summarization client *)

Record Response : Type := {
  status : Z;
  resp_text : Outcome jsstring;   (* resp.text(): settles or rejects *)
  resp_json : Outcome JsValue     (* resp.json(): parsed body or rejection *)
}.

Inductive FetchOutcome : Type :=
| FetchRejects (e : JsError)
| FetchResolves (resp : Response).

(** The backend as the client meets it. *)
Definition Backend : Type := Request -> FetchOutcome.

(** [Response.ok]: the status is in the range 200-299. *)
Definition ok (resp : Response) : bool :=
  ((200 <=? status resp) && (status resp <=? 299))%Z.

Definition is_truthy (v : JsValue) : bool :=
  match v with
  | VUndefined | VNull => false
  | VBool b => b
  | VNum q => negb (Qnum q =? 0)%Z
  | VStr s => truthy s
  | VArr _ | VObj _ => true
  end.

Definition jsstring_eqb (a b : jsstring) : bool :=
  if list_eq_dec ascii_dec a b then true else false.

(** Own property of a parsed object; of a repeated key [JSON.parse]
    keeps the last value. *)
Fixpoint lookupField (k : jsstring) (fields : list (jsstring * JsValue))
  : option JsValue :=
  match fields with
  | [] => None
  | (k', v) :: rest =>
      match lookupField k rest with
      | Some v' => Some v'
      | None => if jsstring_eqb k k' then Some v else None
      end
  end.

(** [data.summary] *)
Definition getSummary (data : JsValue) : Outcome JsValue :=
  match data with
  | VNull | VUndefined =>
      Throw (TypeError "Cannot read properties of null (reading 'summary')")
  | VObj fields =>
      Return (match lookupField (lit "summary") fields with
              | Some v => v
              | None => VUndefined
              end)
  | _ => Return VUndefined
  end.

Definition decimal (n : Z) : jsstring :=
  lit (NilZero.string_of_int (Z.to_int n)).

Definition BackendError (st : Z) (body : jsstring) : JsError :=
  Error (lit "Backend error " ++ decimal st ++ lit ": " ++ body).

Definition MalformedResponse : JsError :=
  Error "Backend returned no summary field.".

Definition lift {A} (o : Outcome A) : M A := ([], o).

(** The request and the status check the three clients share. *)
Definition post (backend : Backend) (req : Request) : M Response :=
  emit (EvFetch req) ;;;
  match backend req with
  | FetchRejects e => throw e
  | FetchResolves resp =>
      if negb (ok resp) then
        errText <- tryCatch (lift (resp_text resp)) (fun _ => ret []) ;;
        throw (BackendError (status resp) errText)
      else ret resp
  end.

(** [summarizeText] (content.js:164-177). *)
Definition summarizeText (backend : Backend) (text : jsstring) : M JsValue :=
  resp <- post backend
            {| req_text := text; req_ratio := Some (1 # 10)%Q;
               req_level := Some (lit "ratio") |} ;;
  data <- lift (resp_json resp) ;;
  summary <- lift (getSummary data) ;;
  if negb (is_truthy summary) then throw MalformedResponse else ret summary.

(** [summarizeText] of the simple variant (content.js:322-334). *)
Definition summarizeText_simple (backend : Backend) (text : jsstring) : M JsValue :=
  resp <- post backend
            {| req_text := text; req_ratio := Some (3 # 10)%Q;
               req_level := None |} ;;
  data <- lift (resp_json resp) ;;
  summary <- lift (getSummary data) ;;
  ret (if is_truthy summary then summary else VStr []).

(** [summarizeText] of the shadow-DOM variant (part_000:31-44). *)
Definition summarizeText_level (backend : Backend) (text level : jsstring)
  : M JsValue :=
  resp <- post backend
            {| req_text := text; req_ratio := None; req_level := Some level |} ;;
  data <- lift (resp_json resp) ;;
  summary <- lift (getSummary data) ;;
  if negb (is_truthy summary) then throw MalformedResponse else ret summary.

(* ------------------------------------------------------------------ *)
(** ** Activation *)

Definition showOverlay (title : jsstring) (body : JsValue) : M unit :=
  emit (EvShowOverlay (headerHtml title) body).

(** [showOverlay] of the simple variant (content.js:337-388): the header
    carries a class. *)
Definition showOverlay_simple (title : jsstring) (body : JsValue) : M unit :=
  emit (EvShowOverlay
          (lit "<div class=" ++ [quot] ++ lit "src-card-header-title" ++ [quot]
             ++ lit ">Summary — " ++ escapeHtml title ++ lit "</div>")
          body).

Definition TooShortToSummarize : JsError :=
  Error "Extracted text is too short to summarize.".

(** [String(err.message || err)] *)
Definition errorText (e : JsError) : jsstring :=
  match e with
  | Error m => orElse m "Error"
  | TypeError m => if truthy m then m else lit "TypeError"
  | SyntaxError m => if truthy m then m else lit "SyntaxError"
  end.

(** The body of the [try] block of a click handler. *)
Definition activationBody (extract : M ExtractionResult)
    (summarize : jsstring -> M JsValue)
    (show : jsstring -> JsValue -> M unit) : M unit :=
  r <- extract ;;
  if List.length (text r) <? 80 then throw TooShortToSummarize
  else summary <- summarize (text r) ;; show (title r) summary.

(** The click handler: [try] / [catch] / [finally] around the body. *)
Definition activation (extract : M ExtractionResult)
    (summarize : jsstring -> M JsValue)
    (show : jsstring -> JsValue -> M unit) : M unit :=
  emit EvButtonBusy ;;;
  finally
    (tryCatch (activationBody extract summarize show)
       (fun err => show "Summary Error" (VStr (errorText err))))
    (emit EvButtonRestored).

(** [tldrBtn.onclick] (content.js:238-255). *)
Definition onclick (pg : Page) (backend : Backend) : M unit :=
  activation (extractArticleText pg) (summarizeText backend) showOverlay.

Definition is_fetch (ev : Event) : bool :=
  match ev with EvFetch _ => true | _ => false end.

(** What the [finally] block of [onTldrClick] meets when [tldrBtn] is
    null: its first statement assigns to a property of null. *)
Definition nullButtonError : JsError :=
  TypeError (lit "Cannot set properties of null (setting 'textContent')").

(** [onTldrClick] (content.js:397-414).  [tldrBtn] is the variable that
    [removeFab] (content.js:290-295) sets to null.  The handler gives up
    control only inside [summarizeText]; the storage listener can run
    [removeFab] in that time and at no other time of the run.
    [removedMeanwhile] says that it did and that no [ensureFab] followed:
    the [finally] block then fails on its first assignment and restores
    nothing.  A run that never reaches the request has no such gap. *)
Definition onTldrClick (pg : Page) (backend : Backend)
    (removedMeanwhile : bool) : M unit :=
  emit EvButtonBusy ;;;
  let body :=
    tryCatch (activationBody (extractSimple pg) (summarizeText_simple backend)
                showOverlay_simple)
      (fun err => showOverlay_simple "Summary Error" (VStr (errorText err))) in
  finally body
    (if existsb is_fetch (trace body) && removedMeanwhile
     then throw nullButtonError
     else emit EvButtonRestored).

(** The click listener of the shadow-DOM button (part_000:153-170). *)
Definition onButtonClick (pg : Page) (backend : Backend) : M unit :=
  activation (extractArticleText_readability pg)
    (fun text => summarizeText_level backend text "detailed") showOverlay.

(* ------------------------------------------------------------------ *)
(** ** Placement engine (part_000:172-232) *)

Module Placement.

(** The four inset properties of the host's inline style, in pixels;
    [None] is [auto]. *)
Record HostStyle : Type := {
  right : option Z;
  left : option Z;
  bottom : option Z;
  top : option Z
}.

Definition bottomRight : HostStyle :=
  {| right := Some 16%Z; bottom := Some 16%Z; left := None; top := None |}.
Definition bottomLeft : HostStyle :=
  {| left := Some 16%Z; bottom := Some 16%Z; right := None; top := None |}.
Definition topRight : HostStyle :=
  {| right := Some 16%Z; top := Some 16%Z; left := None; bottom := None |}.
Definition topLeft : HostStyle :=
  {| left := Some 16%Z; top := Some 16%Z; right := None; bottom := None |}.

Definition corners : list HostStyle :=
  [bottomRight; bottomLeft; topRight; topLeft].

(** [applyCorner]: each of the four properties is written from the
    corner, a null entry as [auto]. *)
Definition applyCorner (c : HostStyle) (st : HostStyle) : HostStyle :=
  {| right := right c; left := left c; bottom := bottom c; top := top c |}.

(** The style written by one turn of the fallback loop. *)
Definition slid (offset : Z) : HostStyle :=
  {| right := Some 16%Z; left := None;
     bottom := Some (16 + offset)%Z; top := None |}.

(** The state of a search: the host's style and the positions that were
    hit-tested so far, oldest first. *)
Record Search : Type := { style : HostStyle; probes : list HostStyle }.

Section Engine.

(** [isClickable(tldrHost)] for the page as it is during one handler:
    the hit-test at the centre of the host depends on where the host is. *)
Variable isClickable : HostStyle -> bool.

(** The [for ... of corners] loop; [true] is the early [return]. *)
Fixpoint tryCorners (cs : list HostStyle) (s : Search) : Search * bool :=
  match cs with
  | [] => (s, false)
  | c :: rest =>
      let st := applyCorner c (style s) in
      let s' := {| style := st; probes := probes s ++ [st] |} in
      if isClickable st then (s', true) else tryCorners rest s'
  end.

(** The [for (let i = 0; i < 5; i++)] loop, [n] turns left. *)
Fixpoint slideUp (n : nat) (offset : Z) (s : Search) : Search :=
  match n with
  | O => s
  | S n' =>
      let st := slid offset in
      let s' := {| style := st; probes := probes s ++ [st] |} in
      if isClickable st then s' else slideUp n' (offset + 100)%Z s'
  end.

(** [ensureVisible] (part_000:193-207). *)
Definition ensureVisible (st : HostStyle) : Search :=
  let (s, found) := tryCorners corners {| style := st; probes := [] |} in
  if found then s else slideUp 5 100%Z s.

End Engine.

(** Drag bookkeeping (part_000:215). *)
Record Engine : Type := {
  host : HostStyle;
  dragging : bool;
  sx : Z; sy : Z;
  startRight : Z; startBottom : Z
}.

(** [parseInt(v === 'auto' ? '16' : v)] on a pixel length. *)
Definition pxOr16 (v : option Z) : Z :=
  match v with Some n => n | None => 16%Z end.

Inductive Signal : Type :=
| Scroll
| Resize
| Mutation
| MouseDown (clientX clientY : Z)
| MouseMove (clientX clientY : Z)
| MouseUp.

Definition onDown (x y : Z) (e : Engine) : Engine :=
  {| host := host e; dragging := true; sx := x; sy := y;
     startRight := pxOr16 (right (host e));
     startBottom := pxOr16 (bottom (host e)) |}.

Definition onDrag (x y : Z) (e : Engine) : Engine :=
  if negb (dragging e) then e
  else
    {| host := {| right := Some (Z.max 0 (startRight e + (sx e - x)));
                  left := left (host e);
                  bottom := Some (Z.max 0 (startBottom e + (sy e - y)));
                  top := top (host e) |};
       dragging := dragging e; sx := sx e; sy := sy e;
       startRight := startRight e; startBottom := startBottom e |}.

Definition relocate (isClickable : HostStyle -> bool) (e : Engine) : Engine :=
  {| host := style (ensureVisible isClickable (host e));
     dragging := dragging e; sx := sx e; sy := sy e;
     startRight := startRight e; startBottom := startBottom e |}.

Definition onUp (isClickable : HostStyle -> bool) (e : Engine) : Engine :=
  relocate isClickable
    {| host := host e; dragging := false; sx := sx e; sy := sy e;
       startRight := startRight e; startBottom := startBottom e |}.

(** One listener run; [isClickable] is the page at that moment.  The
    mouseup listener is registered (once) by mousedown only. *)
Definition handle (isClickable : HostStyle -> bool) (sig : Signal) (e : Engine)
  : Engine :=
  match sig with
  | Scroll | Resize | Mutation => relocate isClickable e
  | MouseDown x y => onDown x y e
  | MouseMove x y => onDrag x y e
  | MouseUp => if dragging e then onUp isClickable e else e
  end.

(** The state right after injection, before the first [ensureVisible]. *)
Definition injected : Engine :=
  {| host := bottomRight; dragging := false; sx := 0; sy := 0;
     startRight := 0; startBottom := 0 |}.

End Placement.

(* ------------------------------------------------------------------ *)
(** ** Vocabulary of the statements *)

(** [p] is an initial piece of [s]; [w] occurs in [s]. *)
Definition Prefix (p s : jsstring) : Prop := exists t, s = p ++ t.
Definition Sub (w s : jsstring) : Prop := exists a b, s = a ++ w ++ b.

(** A piece of [text] reads [frag] once lowered. *)
Definition containsCI (text frag : jsstring) : Prop :=
  exists a m b, text = a ++ m ++ b /\ toLowerCase m = frag.

(** The phrase list and the entity table, as the source spells them. *)
Definition fragments : list jsstring :=
  [lit "i am a bot"; lit "performed automatically";
   lit "contact the moderators"; lit "shortstories is a place for"].


Definition amp : ascii := ascii_of_N 38.

(** Characters that open or close markup or an attribute value. *)
Definition markup (c : ascii) : bool :=
  Ascii.eqb c "<" || Ascii.eqb c ">" || Ascii.eqb c quot || Ascii.eqb c apos.

Definition noNewline (w : jsstring) : Prop := existsb is_nl w = false.
Definition hasInk (s : jsstring) : Prop := exists c, In c s /\ is_ws c = false.

(** The part of [l] that a search visits: up to and including the first
    element passing [f], all of [l] when none passes. *)
Fixpoint upto {A} (f : A -> bool) (l : list A) : list A :=
  match l with
  | [] => []
  | x :: r => if f x then [x] else x :: upto f r
  end.

(** [n] offsets starting at [off], 100 apart. *)
Fixpoint offsets (n : nat) (off : Z) : list Z :=
  match n with
  | O => []
  | S n' => off :: offsets n' (off + 100)%Z
  end.

(** Events that read text off the page. *)
Definition measures (ev : Event) : bool :=
  match ev with
  | EvExtractReddit | EvLargestTextBlock | EvReadability => true
  | _ => false
  end.

(** A text that is empty or shows a character that is not whitespace. *)
Definition Inked (s : jsstring) : Prop := s = [] \/ hasInk s.

(* ------------------------------------------------------------------ *)
(** ** Sample pages *)

(** A page with nothing on it. *)
Definition blankPage : Page :=
  {| hostname := lit "example.org"; docTitle := lit "Example";
     h1_text := None; post_content := None; shreddit_post := None;
     usertext_md := None; old_title := None; main_region := None;
     candidates := []; readability := ParseNull; simple_main := [] |}.

(** A page whose only content is one short paragraph. *)
Definition notePage : Page :=
  {| hostname := lit "example.org"; docTitle := lit "Note";
     h1_text := None; post_content := None; shreddit_post := None;
     usertext_md := None; old_title := None; main_region := None;
     candidates := [[lit "A short note."]];
     readability := ParseArticle (Some (lit "Note")) (Some (lit " A short note. "));
     simple_main := lit "A short note." |}.


(** A backend that answers every request with the same response. *)
Definition always (resp : Response) : Backend := fun _ => FetchResolves resp.

Definition emptyObjectResponse : Response :=
  {| status := 200; resp_text := Return (lit "{}");
     resp_json := Return (VObj []) |}.

Definition serverErrorResponse : Response :=
  {| status := 500; resp_text := Return (lit "Internal Server Error");
     resp_json := Throw (SyntaxError (lit "Unexpected token I in JSON")) |}.

Definition summaryResponse : Response :=
  {| status := 200; resp_text := Return [];
     resp_json := Return (VObj [(lit "summary", VStr (lit "Short."))]) |}.

(** The body of the overlay when the text is too short. *)
Definition tooShortOverlay : JsValue :=
  VStr (lit "Extracted text is too short to summarize.").



(** A thread with a bot disclaimer under the post. *)
Definition botContainer : Container :=
  [lit "The story begins here.";
   lit " I am a bot, and this action was performed automatically. ";
   lit "The story ends here."].

(* ------------------------------------------------------------------ *)
(** ** Expander (content.js:48-60) *)

(** A node of [querySelectorAll] over button, a and summary, as the
    expander reads it. *)
Record Control : Type := {
  control_text : jsstring;          (* n.innerText *)
  aria_label : option jsstring      (* n.getAttribute of aria-label *)
}.

Definition expansionLabels : list jsstring :=
  [lit "read more"; lit "show more"; lit "continue reading"; lit "expand";
   lit "see more"; lit "read full"; lit "open full"; lit "load more"].

(** The text the expander tests: inner text, else the aria label, else
    the empty string; trimmed and lowered. *)
Definition controlLabel (n : Control) : jsstring :=
  toLowerCase (trim (orElse (control_text n) (optStr (aria_label n)))).

Definition isExpander (n : Control) : bool :=
  let t := controlLabel n in
  truthy t && existsb (fun lbl => includes t lbl) expansionLabels.

(** The [forEach] of [expandCollapsers]: the indices of the nodes that
    are clicked, in order.  An exception of a click is caught and
    dropped, so it has no bearing on the nodes that follow. *)
Fixpoint clickedFrom (i : nat) (nodes : list Control) : list nat :=
  match nodes with
  | [] => []
  | n :: rest =>
      if isExpander n then i :: clickedFrom (S i) rest
      else clickedFrom (S i) rest
  end.

Definition expandCollapsers (nodes : list Control) : list nat :=
  clickedFrom 0 nodes.

(* ------------------------------------------------------------------ *)
(** ** Button life cycle of the toggle-aware variant (content.js:257-298) *)

Module Fab.

(** [tldrBtn] names a created button or is null; [attached] lists the
    created buttons that are in the body; [nextId] numbers the elements
    that [createElement] makes. *)
Record State : Type := {
  SRC_ENABLED : bool;
  tldrBtn : option nat;
  attached : list nat;
  overlayOpen : bool;
  nextId : nat
}.

Definition initial : State :=
  {| SRC_ENABLED := true; tldrBtn := None; attached := [];
     overlayOpen := false; nextId := 0 |}.

Definition inBody (b : nat) (st : State) : bool :=
  existsb (Nat.eqb b) (attached st).

(** [ensureFab] (content.js:277-288). *)
Definition ensureFab (st : State) : State :=
  match tldrBtn st with
  | Some b =>
      if inBody b st then st
      else {| SRC_ENABLED := SRC_ENABLED st; tldrBtn := Some (nextId st);
              attached := attached st ++ [nextId st];
              overlayOpen := overlayOpen st; nextId := S (nextId st) |}
  | None =>
      {| SRC_ENABLED := SRC_ENABLED st; tldrBtn := Some (nextId st);
         attached := attached st ++ [nextId st];
         overlayOpen := overlayOpen st; nextId := S (nextId st) |}
  end.

(** [removeFab] (content.js:290-298). *)
Definition removeFab (st : State) : State :=
  {| SRC_ENABLED := SRC_ENABLED st;
     tldrBtn := None;
     attached := match tldrBtn st with
                 | Some b => filter (fun x => negb (Nat.eqb b x)) (attached st)
                 | None => attached st
                 end;
     overlayOpen := false;
     nextId := nextId st |}.

Definition setFlag (v : bool) (st : State) : State :=
  {| SRC_ENABLED := v; tldrBtn := tldrBtn st; attached := attached st;
     overlayOpen := overlayOpen st; nextId := nextId st |}.

(** The callback of [storage.sync.get] (content.js:261-264). *)
Definition onLoaded (enabled : JsValue) (st : State) : State :=
  let st' := setFlag (is_truthy enabled) st in
  if SRC_ENABLED st' then ensureFab st' else st'.

(** The read at start-up (content.js:261): [storage.sync.get] is given
    the default object with [enabled: true], so the callback receives
    the stored value of the key, or [true] when nothing is stored. *)
Definition onStartup (stored : option JsValue) (st : State) : State :=
  onLoaded (match stored with Some v => v | None => VBool true end) st.

(** The [storage.onChanged] listener (content.js:265-274); [change] is
    the new value of the key when the key is among the changes. *)
Definition onChanged (area : jsstring) (change : option JsValue) (st : State)
  : State :=
  match change with
  | Some newValue =>
      if jsstring_eqb area (lit "sync") then
        let st' := setFlag (is_truthy newValue) st in
        if SRC_ENABLED st' then ensureFab st' else removeFab st'
      else st
  | None => st
  end.

(** What can happen to the button: the two storage callbacks, an overlay
    being shown or dismissed, and the page taking an element out of the
    body. *)
Inductive Ev : Type :=
| Loaded (enabled : JsValue)
| Changed (area : jsstring) (change : option JsValue)
| OverlayShown
| OverlayDismissed
| PageDetaches (b : nat).

Definition step (st : State) (ev : Ev) : State :=
  match ev with
  | Loaded v => onLoaded v st
  | Changed area change => onChanged area change st
  | OverlayShown =>
      {| SRC_ENABLED := SRC_ENABLED st; tldrBtn := tldrBtn st;
         attached := attached st; overlayOpen := true; nextId := nextId st |}
  | OverlayDismissed =>
      {| SRC_ENABLED := SRC_ENABLED st; tldrBtn := tldrBtn st;
         attached := attached st; overlayOpen := false; nextId := nextId st |}
  | PageDetaches b =>
      {| SRC_ENABLED := SRC_ENABLED st; tldrBtn := tldrBtn st;
         attached := filter (fun x => negb (Nat.eqb b x)) (attached st);
         overlayOpen := overlayOpen st; nextId := nextId st |}
  end.

Definition run (evs : list Ev) : State := fold_left step evs initial.

End Fab.

(* ------------------------------------------------------------------ *)
(** ** Popup (popup.js) *)

Module Popup.

(** [enabled] is the variable of the closure; [stored] is the value of
    the key in [chrome.storage.sync], if any; the other three fields are
    what [render] writes to the page. *)
Record State : Type := {
  enabled : bool;
  stored : option JsValue;
  datasetOn : option jsstring;
  ariaPressed : option jsstring;
  statusText : option jsstring
}.

Definition initial (stored0 : option JsValue) : State :=
  {| enabled := true; stored := stored0; datasetOn := None;
     ariaPressed := None; statusText := None |}.

Definition boolText (b : bool) : jsstring :=
  if b then lit "true" else lit "false".

(** [render] (popup.js:7-13). *)
Definition render (st : State) : State :=
  {| enabled := enabled st; stored := stored st;
     datasetOn := Some (boolText (enabled st));
     ariaPressed := Some (boolText (enabled st));
     statusText :=
       Some (if enabled st
             then lit "Extension is enabled. The TL;DR button will appear on articles."
             else lit "Extension is disabled. The TL;DR button will be hidden on all pages.") |}.

(** [setEnabled] (popup.js:15-18): the write, then [render] as its
    callback. *)
Definition setEnabled (next : bool) (st : State) : State :=
  render {| enabled := next; stored := Some (VBool next);
            datasetOn := datasetOn st; ariaPressed := ariaPressed st;
            statusText := statusText st |}.

(** The callback of the initial read (popup.js:21-24); the default of
    the read is [true]. *)
Definition load (st : State) : State :=
  let v := match stored st with Some v => v | None => VBool true end in
  render {| enabled := is_truthy v; stored := stored st;
            datasetOn := datasetOn st; ariaPressed := ariaPressed st;
            statusText := statusText st |}.

(** The click listener (popup.js:27). *)
Definition click (st : State) : State := setEnabled (negb (enabled st)) st.

End Popup.

(* ------------------------------------------------------------------ *)
(** ** Further vocabulary *)

(** The first non-empty string of a list, the empty string if none. *)
Fixpoint firstTruthy (l : list jsstring) : jsstring :=
  match l with
  | [] => []
  | s :: rest => if truthy s then s else firstTruthy rest
  end.

(** The rich body of the shreddit-post element, if the page has one. *)
Definition richBody (pg : Page) : option Container :=
  match shreddit_post pg with
  | Some root => rich_body root
  | None => None
  end.

Definition is_overlay (ev : Event) : bool :=
  match ev with EvShowOverlay _ _ => true | _ => false end.

(** The characters [escapeHtml] rewrites. *)
Definition special (c : ascii) : bool :=
  Ascii.eqb c amp || markup c.

(** The nine positions of a placement search, in the order of the search. *)
Definition searchOrder : list Placement.HostStyle :=
  Placement.corners ++ map Placement.slid (offsets 5 100).

(** An inset that is [auto] or not negative. *)
Definition insetOk (v : option Z) : Prop :=
  match v with Some n => (0 <= n)%Z | None => True end.

(** A run of the placement listeners: each signal with the page's
    hit-test at that moment. *)
Fixpoint handleAll (sigs : list ((Placement.HostStyle -> bool) * Placement.Signal))
    (e : Placement.Engine) : Placement.Engine :=
  match sigs with
  | [] => e
  | (f, sig) :: rest => handleAll rest (Placement.handle f sig e)
  end.

(** The score of a candidate in [largestTextBlock]. *)
Definition score (c : Container) : nat :=
  normalizedLength (collectText (Some c)).

(** What the scan knows after the candidates [seen]: the best length is
    the length of the best text, no candidate seen scores more, and the
    best element is the first one seen that reaches the best length. *)
Definition scanInvariant (seen : list Container) (b : Best) : Prop :=
  bestLen b = normalizedLength (bestText b) /\
  (forall c, In c seen -> score c <= bestLen b) /\
  match bestEl b with
  | None => bestLen b = 0 /\ bestText b = []
  | Some i =>
      exists c, nth_error seen i = Some c /\
                bestText b = collectText (Some c) /\
                0 < bestLen b /\
                forall j c', j < i -> nth_error seen j = Some c' ->
                             score c' < bestLen b
  end.

(** A page outside the recognised family with one long story. *)
Definition storyPage : Page :=
  {| hostname := lit "stories.example.org"; docTitle := lit "A long story";
     h1_text := None; post_content := None; shreddit_post := None;
     usertext_md := None; old_title := None; main_region := None;
     candidates := [[lit "menu"]; [repeat "b"%char 500; lit "The end."]];
     readability := ParseThrows (TypeError (lit "Readability is not defined"));
     simple_main := [] |}.

(** A page with no title at all. *)
Definition untitledPage : Page :=
  {| hostname := lit "example.org"; docTitle := [];
     h1_text := None; post_content := None; shreddit_post := None;
     usertext_md := None; old_title := None; main_region := None;
     candidates := [[lit "A paragraph without a heading."]];
     readability := ParseNull; simple_main := [] |}.

(** The requests of the three clients. *)
Definition requestOf (text : jsstring) : Request :=
  {| req_text := text; req_ratio := Some (1 # 10)%Q;
     req_level := Some (lit "ratio") |}.
Definition requestOf_simple (text : jsstring) : Request :=
  {| req_text := text; req_ratio := Some (3 # 10)%Q; req_level := None |}.
Definition requestOf_level (text level : jsstring) : Request :=
  {| req_text := text; req_ratio := None; req_level := Some level |}.

(** A handler run that is framed by the two button events, returns
    normally, shows one overlay and sends at most one request. *)
Definition framed (h : M unit) : Prop :=
  outcome h = Return tt /\
  exists mid,
    trace h = EvButtonBusy :: mid ++ [EvButtonRestored] /\
    List.length (filter is_overlay mid) = 1 /\
    List.length (filter is_fetch mid) <= 1.

(** A page with a story that Readability reads. *)
Definition readablePage : Page :=
  {| hostname := lit "news.example.org"; docTitle := lit "News";
     h1_text := None; post_content := None; shreddit_post := None;
     usertext_md := None; old_title := None; main_region := None;
     candidates := [[repeat "c"%char 120]];
     readability := ParseArticle (Some (lit "Headline")) (Some (repeat "c"%char 120));
     simple_main := repeat "c"%char 120 |}.

(** The four insets of a host style are [auto] or not negative. *)
Definition insetsOk (st : Placement.HostStyle) : Prop :=
  insetOk (Placement.right st) /\ insetOk (Placement.left st) /\
  insetOk (Placement.bottom st) /\ insetOk (Placement.top st).

(** What holds of the engine after any run of its listeners. *)
Definition engineInvariant (e : Placement.Engine) : Prop :=
  insetsOk (Placement.host e) /\
  (Placement.dragging e = false -> In (Placement.host e) searchOrder).

(** At most one button is in the page, and it is the one [tldrBtn]
    names. *)
Definition oneButton (st : Fab.State) : Prop :=
  Fab.attached st = [] \/
  exists b, Fab.tldrBtn st = Some b /\ Fab.attached st = [b].

(** Sample controls of a page. *)
Definition sampleControls : list Control :=
  [ {| control_text := lit "Home"; aria_label := Some (lit "read more") |};
    {| control_text := lit "  Read More... "; aria_label := None |};
    {| control_text := []; aria_label := Some (lit "Expand thread") |};
    {| control_text := lit "   "; aria_label := Some (lit "show more") |} ].

(** The text Readability offers, the empty string when it offers none. *)
Definition readabilityText (pg : Page) : jsstring :=
  match readability pg with
  | ParseArticle _ (Some tc) => tc
  | _ => []
  end.

(** A page on which Readability throws. *)
Definition brokenPage : Page :=
  {| hostname := lit "example.org"; docTitle := lit "Broken";
     h1_text := None; post_content := None; shreddit_post := None;
     usertext_md := None; old_title := None; main_region := None;
     candidates := [];
     readability := ParseThrows (TypeError (lit "Cannot read properties of null"));
     simple_main := lit "  Navigation only  " |}.

(** The title Readability offers, the empty string when it offers none. *)
Definition readabilityTitle (pg : Page) : jsstring :=
  match readability pg with
  | ParseArticle (Some t) _ => t
  | _ => []
  end.






(* ------------------------------------------------------------------ *)
(** * Properties *)

(** ** The model at work *)

Example collapseNewlines_run :
  collapseNewlines (lit "a" ++ [nl; nl; nl; nl] ++ lit "b" ++ [nl; nl] ++ lit "c")
  = lit "a" ++ [nl; nl] ++ lit "b" ++ [nl; nl] ++ lit "c".
Proof. reflexivity. Qed.

Example stripSpaceBeforeNewline_run :
  stripSpaceBeforeNewline (lit "a  " ++ [nl; nl] ++ lit " b" ++ [nl] ++ lit "  c")
  = lit "a" ++ [nl] ++ lit " b" ++ [nl] ++ lit "  c".
Proof. reflexivity. Qed.

Example collapseSpaces_run :
  collapseSpaces (lit "a " ++ [nl] ++ lit "  b ") = lit "a b ".
Proof. reflexivity. Qed.

Example trim_run : trim (lit "  a b " ++ [nl; nbsp]) = lit "a b".
Proof. reflexivity. Qed.

Example stripRedditSuffix_run :
  stripRedditSuffix "A story : Reddit - the front page" = lit "A story".
Proof. reflexivity. Qed.

Example isNoiseParagraph_bot :
  isNoiseParagraph "Beep. I AM A BOT, and this was Performed Automatically." = true.
Proof. reflexivity. Qed.

Example isNoiseParagraph_plain :
  isNoiseParagraph "The moderators met on Monday." = false.
Proof. reflexivity. Qed.

Example extractArticleText_note :
  extractArticleText notePage
  = ([EvSleep 300; EvExpandCollapsers; EvLargestTextBlock; EvReadability],
     Return {| title := lit "Note"; text := lit "A short note." |}).
Proof. reflexivity. Qed.

(** ** Occurrences *)

Lemma startsWith_iff (s p : jsstring) : startsWith s p = true <-> Prefix p s.
Proof.
  revert s; induction p as [|a p IH]; intros s; simpl.
  - split; [intros _; now exists s | reflexivity].
  - destruct s as [|b s].
    + split; [discriminate | intros [t Ht]; discriminate].
    + rewrite andb_true_iff, Ascii.eqb_eq, IH. split.
      * intros [-> [t ->]]. now exists t.
      * intros [t Ht]. injection Ht as -> ->. split; [reflexivity | now exists t].
Qed.

Lemma Prefix_Sub (p s : jsstring) : Prefix p s -> Sub p s.
Proof. intros [t ->]. now exists [], t. Qed.

Lemma Sub_cons (w s : jsstring) (c : ascii) : Sub w s -> Sub w (c :: s).
Proof. intros (a & b & ->). now exists (c :: a), b. Qed.

Lemma Sub_cons_inv (w s : jsstring) (c : ascii) :
  Sub w (c :: s) -> Prefix w (c :: s) \/ Sub w s.
Proof.
  intros (a & b & H). destruct a as [|x a]; simpl in H.
  - left. now exists b.
  - right. injection H as _ ->. now exists a, b.
Qed.

Lemma includes_iff (s p : jsstring) : includes s p = true <-> Sub p s.
Proof.
  induction s as [|c s IH].
  - simpl. rewrite orb_false_r, startsWith_iff. split.
    + apply Prefix_Sub.
    + intros (a & b & H). symmetry in H.
      apply app_eq_nil in H as [-> H]. apply app_eq_nil in H as [-> ->].
      now exists [].
  - cbn [includes]. rewrite orb_true_iff, startsWith_iff, IH. split.
    + intros [H | H]; [now apply Prefix_Sub | now apply Sub_cons].
    + apply Sub_cons_inv.
Qed.

Lemma Sub_refl (s : jsstring) : Sub s s.
Proof. exists [], []. simpl. now rewrite app_nil_r. Qed.

Lemma Sub_trans (u v w : jsstring) : Sub u v -> Sub v w -> Sub u w.
Proof.
  intros (a & b & ->) (a' & b' & ->). exists (a' ++ a), (b ++ b').
  now rewrite <- !app_assoc.
Qed.

Lemma Sub_app_l (w a b : jsstring) : Sub w a -> Sub w (a ++ b).
Proof.
  intros (x & y & ->). exists x, (y ++ b). now rewrite <- !app_assoc.
Qed.

Lemma Sub_app_r (w a b : jsstring) : Sub w b -> Sub w (a ++ b).
Proof.
  intros (x & y & ->). exists (a ++ x), y. now rewrite <- !app_assoc.
Qed.


(** ** Noise classifier *)

Lemma containsCI_iff (text frag : jsstring) :
  includes (toLowerCase text) frag = true <-> containsCI text frag.
Proof.
  rewrite includes_iff. unfold toLowerCase. split.
  - intros (a & b & H).
    apply map_eq_app in H as (a' & r & -> & Ha & H).
    apply map_eq_app in H as (m & b' & -> & Hm & Hb).
    now exists a', m, b'.
  - intros (a & m & b & -> & <-).
    exists (map lower_char a), (map lower_char b). now rewrite !map_app.
Qed.

(** C5. The noise classifier answers true exactly for the texts that
    contain, without regard to case, one of the four configured phrase
    fragments, or all three of the words rules, report and moderators. *)
Theorem isNoiseParagraph_iff (text : jsstring) :
  isNoiseParagraph text = true <->
  (exists f, In f fragments /\ containsCI text f) \/
  (containsCI text "rules" /\ containsCI text "report"
   /\ containsCI text "moderators").
Proof.
  unfold isNoiseParagraph. cbv zeta.
  rewrite !orb_true_iff, !andb_true_iff, !containsCI_iff. split.
  - intros [[[[H | H] | H] | H] | H]; [left; eexists; split; [|exact H]; simpl; tauto .. | right; tauto].
  - intros [(f & Hin & H) | H]; [|right; tauto].
    simpl in Hin. left.
    destruct Hin as [<- | [<- | [<- | [<- | []]]]]; tauto.
Qed.

(** ** Escaping *)








(* ------------------------------------------------------------------ *)
(** ** Placement engine *)

Module PlacementFacts.
Import Placement.

Section Search.
Variable isClickable : HostStyle -> bool.

Lemma applyCorner_eq (c st : HostStyle) : applyCorner c st = c.
Proof. now destruct c. Qed.

Lemma last_cons_default (l : list HostStyle) (c d : HostStyle) :
  last (c :: l) d = last l c.
Proof.
  revert c d; induction l as [|x l IH]; intros c d; [reflexivity|].
  change (last (c :: x :: l) d) with (last (x :: l) d).
  now rewrite !IH.
Qed.

Lemma last_app_default (a b : list HostStyle) (d : HostStyle) :
  last (a ++ b) d = last b (last a d).
Proof.
  revert d; induction a as [|x a IH]; intros d; [reflexivity|].
  change ((x :: a) ++ b) with (x :: (a ++ b)).
  now rewrite !last_cons_default, IH.
Qed.

Lemma tryCorners_spec (cs : list HostStyle) (s : Search) :
  tryCorners isClickable cs s =
  ({| style := last (upto isClickable cs) (style s);
      probes := probes s ++ upto isClickable cs |},
   existsb isClickable cs).
Proof.
  revert s; induction cs as [|c cs IH]; intros s.
  - simpl. rewrite app_nil_r. now destruct s.
  - cbn [tryCorners upto existsb]. rewrite applyCorner_eq.
    destruct (isClickable c) eqn:Hc; [reflexivity|].
    rewrite IH. cbn [style probes orb]. rewrite <- app_assoc. cbn [app].
    now rewrite last_cons_default.
Qed.

Lemma slideUp_spec (n : nat) (off : Z) (s : Search) :
  slideUp isClickable n off s =
  {| style := last (upto isClickable (map slid (offsets n off))) (style s);
     probes := probes s ++ upto isClickable (map slid (offsets n off)) |}.
Proof.
  revert off s; induction n as [|n IH]; intros off s.
  - simpl. rewrite app_nil_r. now destruct s.
  - cbn [slideUp offsets map upto].
    destruct (isClickable (slid off)) eqn:Hc; [reflexivity|].
    rewrite IH. cbn [style probes]. rewrite <- app_assoc. cbn [app].
    now rewrite last_cons_default.
Qed.

Lemma upto_app_false (l r : list HostStyle) :
  existsb isClickable l = false ->
  upto isClickable (l ++ r) = l ++ upto isClickable r.
Proof.
  induction l as [|x l IH]; simpl; [reflexivity|].
  destruct (isClickable x); [discriminate|]. intros H. now rewrite IH.
Qed.

Lemma upto_app_true (l r : list HostStyle) :
  existsb isClickable l = true ->
  upto isClickable (l ++ r) = upto isClickable l.
Proof.
  induction l as [|x l IH]; simpl; [discriminate|].
  destruct (isClickable x); [reflexivity|]. intros H. now rewrite IH.
Qed.

Lemma upto_all (l : list HostStyle) :
  existsb isClickable l = false -> upto isClickable l = l.
Proof.
  intros H. rewrite <- (app_nil_r l) at 1. rewrite upto_app_false by exact H.
  simpl. apply app_nil_r.
Qed.

Lemma last_upto (l : list HostStyle) (d : HostStyle) :
  last (upto isClickable l) d =
  match find isClickable l with
  | Some p => p
  | None => last l d
  end.
Proof.
  revert d. induction l as [|x l IH]; intros d; [reflexivity|].
  cbn [upto find]. destruct (isClickable x) eqn:Hx; [reflexivity|].
  now rewrite !last_cons_default, IH.
Qed.

(** The search as one pass over nine positions. *)
Lemma ensureVisible_spec (st : HostStyle) :
  ensureVisible isClickable st =
  {| style := last (upto isClickable (corners ++ map slid (offsets 5 100))) st;
     probes := upto isClickable (corners ++ map slid (offsets 5 100)) |}.
Proof.
  unfold ensureVisible. rewrite tryCorners_spec. cbn [style probes app].
  destruct (existsb isClickable corners) eqn:Hc.
  - now rewrite upto_app_true.
  - rewrite slideUp_spec. cbn [style probes].
    rewrite (upto_app_false _ _ Hc), (upto_all _ Hc).
    now rewrite last_app_default.
Qed.

End Search.

(** C9. Every search probes the four corners in the order bottom-right,
    bottom-left, top-right, top-left (each 16 pixels from its two
    edges) and then the default corner raised by 100, 200, 300, 400 and
    500 pixels (bottom 116, 216, 316, 416, 516 with right 16), and stops
    at the first position whose hit-test passes; the host ends at that
    position, or, when all nine fail, at the last one probed (bottom
    516).  The search is a total function: it always returns. *)
Theorem ensureVisible_order (isClickable : HostStyle -> bool) (st : HostStyle) :
  let at_ (r l b t : option Z) :=
    {| right := r; left := l; bottom := b; top := t |} in
  let candidates :=
    [at_ (Some 16%Z) None (Some 16%Z) None;
     at_ None (Some 16%Z) (Some 16%Z) None;
     at_ (Some 16%Z) None None (Some 16%Z);
     at_ None (Some 16%Z) None (Some 16%Z);
     at_ (Some 16%Z) None (Some 116%Z) None;
     at_ (Some 16%Z) None (Some 216%Z) None;
     at_ (Some 16%Z) None (Some 316%Z) None;
     at_ (Some 16%Z) None (Some 416%Z) None;
     at_ (Some 16%Z) None (Some 516%Z) None] in
  let r := ensureVisible isClickable st in
  probes r = upto isClickable candidates /\
  style r = match find isClickable candidates with
            | Some p => p
            | None => at_ (Some 16%Z) None (Some 516%Z) None
            end.
Proof.
  cbv zeta. rewrite ensureVisible_spec. cbn [style probes]. split.
  - reflexivity.
  - rewrite last_upto. reflexivity.
Qed.

(** C9, on a page whose lower half is covered: the first two corners
    fail, the third is taken. *)
Example ensureVisible_order_covered_bottom :
  let lowerCovered (p : HostStyle) :=
    match bottom p with Some _ => false | None => true end in
  ensureVisible lowerCovered bottomRight =
  {| style := {| right := Some 16%Z; left := None; bottom := None; top := Some 16%Z |};
     probes := [ {| right := Some 16%Z; left := None; bottom := Some 16%Z; top := None |};
                 {| right := None; left := Some 16%Z; bottom := Some 16%Z; top := None |};
                 {| right := Some 16%Z; left := None; bottom := None; top := Some 16%Z |} ] |}.
Proof. reflexivity. Qed.

(** C9, on a page where nothing is clickable: nine probes, no failure,
    and the host rests 516 pixels above the bottom edge. *)
Example ensureVisible_order_all_fail :
  style (ensureVisible (fun _ => false) bottomLeft)
  = {| right := Some 16%Z; left := None; bottom := Some 516%Z; top := None |} /\
  map bottom (probes (ensureVisible (fun _ => false) bottomLeft))
  = [Some 16; Some 16; None; None; Some 116; Some 216; Some 316; Some 416; Some 516]%Z.
Proof. split; reflexivity. Qed.

(** C9, on a page that covers everything below 300 pixels from the
    bottom edge and the whole top: the third raised position is taken. *)
Example ensureVisible_order_third_step :
  let covered (p : HostStyle) :=
    match bottom p with Some b => (300 <=? b)%Z | None => false end in
  style (ensureVisible covered bottomRight)
  = {| right := Some 16%Z; left := None; bottom := Some 316%Z; top := None |} /\
  List.length (probes (ensureVisible covered bottomRight)) = 7.
Proof. split; reflexivity. Qed.

(** C2. The code drops a user-placed position.  The host rests at
    bottom-right; the user drags it 100 pixels left and 200 up on a page
    where every position is clickable.  The dragged offset is clickable,
    yet the search that pointer-up (or a scroll) starts never probes it
    and puts the host back in the bottom-right corner: the drag that
    part_000:214 announces has no lasting effect. *)
Lemma drag_offset_not_kept :
  let everywhere := fun _ : HostStyle => true in
  let placed := relocate everywhere injected in
  let dragged :=
    handle everywhere (MouseMove 400 300)
      (handle everywhere (MouseDown 500 500) placed) in
  let custom := {| right := Some 116%Z; left := None;
                   bottom := Some 216%Z; top := None |} in
  host dragged = custom /\
  everywhere custom = true /\
  probes (ensureVisible everywhere custom) = [bottomRight] /\
  host (handle everywhere MouseUp dragged) = bottomRight /\
  host (handle everywhere Scroll dragged) = bottomRight /\
  bottomRight <> custom.
Proof. cbv zeta. repeat split; try reflexivity. discriminate. Qed.

(** The search does not look at where the host is: its probes and its
    result are the same from every starting style. *)
Lemma ensureVisible_start_irrelevant
    (isClickable : HostStyle -> bool) (st st' : HostStyle) :
  ensureVisible isClickable st = ensureVisible isClickable st'.
Proof.
  rewrite !ensureVisible_spec. f_equal.
  destruct (upto isClickable (corners ++ map slid (offsets 5 100)))
    as [|p ps] eqn:E.
  - exfalso. cbn in E. destruct (isClickable bottomRight); discriminate.
  - now rewrite !last_cons_default.
Qed.

(** Whenever the default corner is free, pointer-up and every scroll,
    resize or mutation signal put the host there, wherever it was
    dragged to: no drag survives. *)
Lemma drag_never_sticks
    (isClickable : HostStyle -> bool) (e : Engine) (sig : Signal) :
  isClickable bottomRight = true ->
  sig = Scroll \/ sig = Resize \/ sig = Mutation
    \/ (sig = MouseUp /\ dragging e = true) ->
  host (handle isClickable sig e) = bottomRight.
Proof.
  intros Hfree Hsig.
  assert (Hh : host (handle isClickable sig e)
               = style (ensureVisible isClickable (host e))).
  { destruct Hsig as [-> | [-> | [-> | [-> Hd]]]]; try reflexivity.
    cbn [handle]. now rewrite Hd. }
  rewrite Hh, ensureVisible_spec. cbn [style app corners upto].
  now rewrite Hfree.
Qed.

End PlacementFacts.

(* ------------------------------------------------------------------ *)
(** ** Trimming and whitespace *)

Lemma dropWhile_keeps (f : ascii -> bool) (s : jsstring) (c : ascii) :
  In c s -> f c = false -> In c (dropWhile f s).
Proof.
  intros Hin Hc. induction s as [|x s IH]; [contradiction|].
  simpl. destruct (f x) eqn:Hx; [|exact Hin].
  destruct Hin as [-> | Hin]; [congruence | now apply IH].
Qed.

Lemma dropWhile_head (f : ascii -> bool) (s : jsstring) :
  dropWhile f s = [] \/ exists c t, dropWhile f s = c :: t /\ f c = false.
Proof.
  induction s as [|x s IH]; [now left|].
  simpl. destruct (f x) eqn:Hx; [exact IH|]. right. now exists x, s.
Qed.

Lemma dropWhile_suffix (f : ascii -> bool) (s : jsstring) :
  exists a, s = a ++ dropWhile f s.
Proof.
  induction s as [|x s [a IH]]; [now exists []|].
  simpl. destruct (f x); [|now exists []].
  exists (x :: a). simpl. now rewrite <- IH.
Qed.

Lemma trim_Sub (s : jsstring) : Sub (trim s) s.
Proof.
  unfold trim, trimEnd, trimStart.
  destruct (dropWhile_suffix is_ws s) as [a Ha].
  destruct (dropWhile_suffix is_ws (rev (dropWhile is_ws s))) as [b Hb].
  exists a, (rev b). rewrite <- rev_app_distr, <- Hb, rev_involutive.
  exact Ha.
Qed.

Lemma hasInk_trim (s : jsstring) : hasInk s -> hasInk (trim s).
Proof.
  intros (c & Hin & Hc). exists c. split; [|exact Hc].
  unfold trim, trimEnd, trimStart. rewrite <- in_rev.
  apply dropWhile_keeps; [|exact Hc]. rewrite <- in_rev.
  now apply dropWhile_keeps.
Qed.

Lemma Inked_trim (s : jsstring) : Inked (trim s).
Proof.
  unfold trim, trimEnd.
  destruct (dropWhile_head is_ws (rev (trimStart s))) as [-> | (c & t & -> & Hc)].
  - now left.
  - right. exists c. split; [|exact Hc]. rewrite <- in_rev. now left.
Qed.

Lemma hasInk_nonempty (s : jsstring) : hasInk s -> s <> [].
Proof. intros (c & Hin & _) ->. contradiction. Qed.

Lemma Inked_truthy (s : jsstring) : Inked s -> truthy s = true -> hasInk s.
Proof. intros [-> | H] Ht; [discriminate | exact H]. Qed.

Lemma truthy_false (s : jsstring) : truthy s = false -> s = [].
Proof. now destruct s. Qed.

Lemma not_ws_not_nl (c : ascii) : is_ws c = false -> is_nl c = false.
Proof.
  intros H. unfold is_nl. destruct (Ascii.eqb c nl) eqn:E; [|reflexivity].
  apply Ascii.eqb_eq in E. subst c. discriminate.
Qed.

(** ** The rewrites keep every character that is not whitespace *)

Lemma replaceNbsp_ink (s : jsstring) : hasInk s -> hasInk (replaceNbsp s).
Proof.
  intros (c & Hin & Hc). exists c. split; [|exact Hc].
  unfold replaceNbsp. apply in_map_iff. exists c. split; [|exact Hin].
  destruct (Ascii.eqb c nbsp) eqn:E; [|reflexivity].
  apply Ascii.eqb_eq in E. subst c. discriminate.
Qed.

Lemma stripSpaceBeforeNewline_keeps (run s : jsstring) (c : ascii) :
  In c s -> is_ws c = false -> In c (stripSpaceBeforeNewline_from run s).
Proof.
  intros Hin Hc. revert run. induction s as [|x s IH]; intros run; [contradiction|].
  cbn [stripSpaceBeforeNewline_from].
  destruct (is_ws x) eqn:Hx.
  - destruct Hin as [-> | Hin]; [congruence | now apply IH].
  - apply in_or_app. right.
    destruct Hin as [-> | Hin]; [now left | right; now apply IH].
Qed.

Lemma collapseNewlines_keeps (k : nat) (s : jsstring) (c : ascii) :
  In c s -> is_nl c = false -> In c (collapseNewlines_from k s).
Proof.
  intros Hin Hc. revert k. induction s as [|x s IH]; intros k; [contradiction|].
  cbn [collapseNewlines_from].
  destruct (is_nl x) eqn:Hx.
  - destruct Hin as [-> | Hin]; [congruence | now apply IH].
  - apply in_or_app. right.
    destruct Hin as [-> | Hin]; [now left | right; now apply IH].
Qed.

Lemma finalNormalize_ink (s : jsstring) : hasInk s -> hasInk (finalNormalize s).
Proof.
  intros H. unfold finalNormalize. apply hasInk_trim.
  apply replaceNbsp_ink in H. destruct H as (c & Hin & Hc).
  exists c. split; [|exact Hc].
  apply collapseNewlines_keeps; [|now apply not_ws_not_nl].
  now apply stripSpaceBeforeNewline_keeps.
Qed.

(** ** What the strategies hold *)

Lemma collectText_Inked (c : option Container) : Inked (collectText c).
Proof. destruct c; [apply Inked_trim | now left]. Qed.

Lemma extractReddit_Inked (pg : Page) : Inked (text (extractReddit pg)).
Proof.
  unfold extractReddit.
  set (t0 := match post_content pg with Some c => collectText (Some c) | None => [] end).
  assert (H0 : Inked t0).
  { unfold t0. destruct (post_content pg); [apply collectText_Inked | now left]. }
  clearbody t0.
  generalize (orElse (trim (optStr (h1_text pg)))
                (trim (stripRedditSuffix (docTitle pg)))) as ti0.
  intros ti0.
  set (p1 := if negb (truthy t0) then _ else _).
  assert (H1 : Inked (snd p1)).
  { unfold p1. destruct (negb (truthy t0)); [|exact H0].
    destruct (shreddit_post pg) as [root|]; [|exact H0]. cbn [snd].
    destruct (rich_body root); [apply collectText_Inked | exact H0]. }
  clearbody p1. destruct p1 as [ti1 t1]. cbn [snd] in H1.
  set (p2 := if negb (truthy t1) then _ else _).
  assert (H2 : Inked (snd p2)).
  { unfold p2. destruct (negb (truthy t1)); [|exact H1]. cbn [snd].
    destruct (usertext_md pg); [apply collectText_Inked | exact H1]. }
  clearbody p2. destruct p2 as [ti2 t2]. cbn [snd text] in *.
  destruct (negb (truthy t2)); [apply collectText_Inked | exact H2].
Qed.

Lemma scanCandidates_Inked (cs : list Container) (i : nat) (b : Best) :
  Inked (bestText b) -> Inked (bestText (scanCandidates i cs b)).
Proof.
  revert i b; induction cs as [|el cs IH]; intros i b Hb; [exact Hb|].
  cbn [scanCandidates]. apply IH.
  destruct (bestLen b <? _); [apply collectText_Inked | exact Hb].
Qed.

Lemma largestTextBlock_Inked (pg : Page) : Inked (bestText (largestTextBlock pg)).
Proof. apply scanCandidates_Inked. now left. Qed.

Lemma readabilityStep_Inked (pg : Page) (ttl txt : jsstring) :
  Inked txt -> Inked (snd (readabilityStep pg ttl txt)).
Proof.
  intros H. unfold readabilityStep.
  destruct (readability pg) as [e| |atitle [tc|]]; try exact H.
  destruct (truthy tc); [|exact H]. cbn [snd].
  destruct (_ <? _); [apply Inked_trim | exact H].
Qed.

(** The strategies always come back, having slept, then expanded, then
    measured; what they hold is empty or inked. *)
Lemma strategies_shape (pg : Page) :
  exists evs ttl held,
    strategies pg
    = (EvSleep 300 :: EvExpandCollapsers :: evs, Return (ttl, held)) /\
    forallb measures evs = true /\ Inked held.
Proof.
  unfold strategies.
  pose proof (extractReddit_Inked pg) as Hr.
  pose proof (largestTextBlock_Inked pg) as Hb.
  assert (Hnil : Inked []) by now left.
  destruct (endsWith (hostname pg) "reddit.com");
    cbv [bind emit call ret]; cbn [app];
    match goal with
    | |- context [if ?c then ([EvLargestTextBlock], _) else _] => destruct c
    end;
    match goal with
    | |- context [if ?c then ([EvReadability], _) else _] => destruct c
    end;
    cbn [app];
    (eexists; eexists; eexists; split;
     [ try reflexivity;
       match goal with
       | |- (_, Return ?p) = _ => rewrite (surjective_pairing p); reflexivity
       end
     | split; [reflexivity|] ]);
    try apply readabilityStep_Inked;
    repeat match goal with
           | |- Inked (if ?c then _ else _) => destruct c
           end;
    assumption.
Qed.

(* ------------------------------------------------------------------ *)
(** ** The extraction chain *)

Lemma extractArticleText_unfold (pg : Page) (evs : list Event) (ttl held : jsstring) :
  strategies pg = (evs, Return (ttl, held)) ->
  extractArticleText pg =
  (evs,
   if truthy held
   then Return {| title := if truthy ttl then ttl else docTitle pg;
                  text := finalNormalize held |}
   else Throw ExtractionFailed).
Proof.
  intros H. unfold extractArticleText. rewrite H.
  cbv [bind throw ret]. destruct (truthy held), (truthy ttl); cbn;
    now rewrite app_nil_r.
Qed.

(** C1 as stated fails: on a page with one short paragraph the chain
    first sleeps, then runs the expander and goes on to measure at once;
    no delay follows the expansion. *)
Lemma settle_delay_precedes_expansion :
  trace (extractArticleText notePage)
  = [EvSleep 300; EvExpandCollapsers; EvLargestTextBlock; EvReadability] /\
  ~ (exists pre mid post ms,
       trace (extractArticleText notePage)
       = pre ++ EvExpandCollapsers :: mid ++ EvSleep ms :: post).
Proof.
  split; [reflexivity|].
  intros (pre & mid & post & ms & H).
  change (trace (extractArticleText notePage))
    with [EvSleep 300; EvExpandCollapsers; EvLargestTextBlock; EvReadability] in H.
  assert (Hin : In (EvSleep ms) (mid ++ EvSleep ms :: post))
    by (apply in_or_app; right; now left).
  destruct pre as [|p0 [|p1 pre]]; cbn in H.
  - discriminate.
  - injection H as _ H. rewrite <- H in Hin.
    destruct Hin as [E | [E | []]]; discriminate.
  - injection H as _ _ H.
    assert (Hin' : In (EvSleep ms) (pre ++ EvExpandCollapsers :: mid ++ EvSleep ms :: post))
      by (apply in_or_app; right; right; exact Hin).
    rewrite <- H in Hin'.
    destruct Hin' as [E | [E | []]]; discriminate.
Qed.

(** C1, amended. In every extraction attempt of content.js the fixed
    300 ms delay is waited first, the expander is run after it, and
    everything that follows is text measurement with no further delay;
    the Readability-only variant waits 400 ms and measures, the simple
    variant measures at once, and neither of them runs the expander. *)
Theorem delay_then_expansion (pg : Page) :
  (exists evs,
     trace (extractArticleText pg) = EvSleep 300 :: EvExpandCollapsers :: evs /\
     forallb measures evs = true) /\
  trace (extractArticleText_readability pg) = [EvSleep 400; EvReadability] /\
  trace (extractSimple pg) = [EvReadability].
Proof.
  split; [|split].
  - destruct (strategies_shape pg) as (evs & ttl & held & H & Hm & _).
    exists evs. split; [|exact Hm].
    now rewrite (extractArticleText_unfold pg _ _ _ H).
  - unfold extractArticleText_readability.
    destruct (readability pg) as [e| |atitle [tc|]]; try reflexivity.
    now destruct (truthy tc).
  - unfold extractSimple.
    now destruct (readability pg) as [e| |atitle tc].
Qed.


Lemma normalizedLength_truthy (s : jsstring) :
  0 < normalizedLength s -> truthy s = true.
Proof. destruct s; [cbn; lia | reflexivity]. Qed.

(** C4. The chain fails with ExtractionFailed exactly when the text it
    holds after the strategies normalises to the empty string; in every
    other case it returns, and the returned text is that normalised text
    and is not empty. *)
Theorem extraction_fails_iff_final_text_empty (pg : Page) :
  exists ttl held,
    outcome (strategies pg) = Return (ttl, held) /\
    (outcome (extractArticleText pg) = Throw ExtractionFailed
     <-> finalNormalize held = []) /\
    (finalNormalize held <> [] ->
     exists t, outcome (extractArticleText pg)
               = Return {| title := t; text := finalNormalize held |}) /\
    (forall r, outcome (extractArticleText pg) = Return r -> text r <> []).
Proof.
  destruct (strategies_shape pg) as (evs & ttl & held & H & _ & Hink).
  exists ttl, held. rewrite (extractArticleText_unfold pg _ _ _ H), H.
  cbn [outcome snd]. split; [reflexivity|].
  destruct (truthy held) eqn:Ht.
  - pose proof (hasInk_nonempty _ (finalNormalize_ink _ (Inked_truthy _ Hink Ht))) as Hne.
    split; [|split].
    + split; [discriminate | intros E; contradiction].
    + intros _. eexists. reflexivity.
    + intros r E. injection E as <-. exact Hne.
  - apply truthy_false in Ht. subst held.
    split; [|split].
    + split; reflexivity.
    + intros Hne. exfalso. now apply Hne.
    + intros r E. discriminate.
Qed.

(** C4, on the blank page (failure) and on the page with one paragraph. *)
Lemma extraction_fails_iff_final_text_empty_witness :
  outcome (extractArticleText blankPage) = Throw ExtractionFailed /\
  outcome (extractArticleText notePage)
  = Return {| title := lit "Note"; text := lit "A short note." |} /\
  exists ttl held,
    outcome (strategies notePage) = Return (ttl, held) /\
    (forall r, outcome (extractArticleText notePage) = Return r -> text r <> []).
Proof.
  split; [reflexivity | split; [reflexivity|]].
  destruct (extraction_fails_iff_final_text_empty notePage)
    as (ttl & held & H & _ & _ & Hne).
  exists ttl, held. split; [exact H | exact Hne].
Defined.

(* ------------------------------------------------------------------ *)
(** ** Summarization client *)

Lemma post_ok (backend : Backend) (req : Request) (resp : Response) :
  backend req = FetchResolves resp -> ok resp = true ->
  post backend req = ([EvFetch req], Return resp).
Proof. intros Hb Hok. unfold post. cbv [bind emit]. now rewrite Hb, Hok. Qed.

Lemma post_not_ok (backend : Backend) (req : Request) (resp : Response) :
  backend req = FetchResolves resp -> ok resp = false ->
  post backend req =
  ([EvFetch req],
   Throw (BackendError (status resp)
            match resp_text resp with Return s => s | Throw _ => [] end)).
Proof.
  intros Hb Hok. unfold post. cbv [bind emit]. rewrite Hb, Hok.
  cbv [lift tryCatch ret throw negb]. now destruct (resp_text resp).
Qed.

(** C3 as stated fails for the client of the simple variant: a 200
    response whose JSON is an object without a summary field does not
    make it fail; it returns the empty string. *)
Lemma simple_client_returns_empty_summary :
  ok emptyObjectResponse = true /\
  resp_json emptyObjectResponse = Return (VObj []) /\
  lookupField (lit "summary") [] = None /\
  summarizeText_simple (always emptyObjectResponse) "Some long article text."
  = ([EvFetch {| req_text := lit "Some long article text.";
                 req_ratio := Some (3 # 10)%Q; req_level := None |}],
     Return (VStr [])) /\
  outcome (summarizeText_simple (always emptyObjectResponse)
             "Some long article text.")
  <> Throw MalformedResponse.
Proof. repeat split; try reflexivity. discriminate. Qed.

(** C3, amended. Each client makes one request.  A response whose status
    is outside 200-299 makes all three clients fail with BackendError
    carrying the status and the body text (empty when the body cannot be
    read).  On a 2xx response whose JSON is a value other than null:
    when the summary field is missing or falsy, the clients of
    content.js:164 and of the shadow-DOM variant fail with
    MalformedResponse while the client of the simple variant returns the
    empty string; when it is truthy, all three return it. *)
Theorem summarize_contract
    (backend : Backend) (resp : Response) (text level : jsstring) :
  (forall req, req_text req = text -> backend req = FetchResolves resp) ->
  let a := summarizeText backend text in
  let b := summarizeText_simple backend text in
  let c := summarizeText_level backend text level in
  (exists ra rb rc, trace a = [EvFetch ra] /\ trace b = [EvFetch rb]
                    /\ trace c = [EvFetch rc]) /\
  (ok resp = false ->
   let err := BackendError (status resp)
                match resp_text resp with Return s => s | Throw _ => [] end in
   outcome a = Throw err /\ outcome b = Throw err /\ outcome c = Throw err) /\
  (ok resp = true ->
   forall data summary,
     resp_json resp = Return data -> getSummary data = Return summary ->
     (is_truthy summary = false ->
      outcome a = Throw MalformedResponse /\
      outcome c = Throw MalformedResponse /\
      outcome b = Return (VStr [])) /\
     (is_truthy summary = true ->
      outcome a = Return summary /\ outcome b = Return summary /\
      outcome c = Return summary)).
Proof.
  intros Hb. cbv zeta.
  unfold summarizeText, summarizeText_simple, summarizeText_level.
  destruct (ok resp) eqn:Hok.
  - rewrite !(post_ok backend _ resp) by (try apply Hb; easy).
    split; [|split; [discriminate|]].
    + do 3 eexists. cbv [bind lift ret throw trace fst].
      destruct (resp_json resp) as [data|e]; [|now repeat split].
      destruct (getSummary data) as [v|e]; [|now repeat split].
      destruct (is_truthy v); now repeat split.
    + intros _ data summary Hj Hs.
      cbv [bind lift ret throw outcome snd]. rewrite Hj, Hs.
      split; intros Ht; rewrite Ht; now repeat split.
  - rewrite !(post_not_ok backend _ resp) by (try apply Hb; easy).
    split; [|split; [|discriminate]].
    + do 3 eexists. now repeat split.
    + intros _. now repeat split.
Qed.

(** C3, amended, at a 500 response and at a response with a summary. *)
Lemma summarize_contract_witness :
  outcome (summarizeText (always serverErrorResponse) "Text.")
  = Throw (Error "Backend error 500: Internal Server Error") /\
  outcome (summarizeText_level (always summaryResponse) "Text." "detailed")
  = Return (VStr "Short.").
Proof.
  split.
  - refine (eq_trans
              (proj1 (proj1 (proj2 (summarize_contract
                 (always serverErrorResponse) serverErrorResponse
                 "Text." "detailed" _)) _))
              eq_refl); [intros req _ |]; reflexivity.
  - refine (proj2 (proj2 (proj2 (proj2 (proj2 (summarize_contract
              (always summaryResponse) summaryResponse
              "Text." "detailed" _)) eq_refl
              _ _ eq_refl eq_refl) eq_refl))).
    intros req _. reflexivity.
Defined.

(** A JSON body that is [null] leaves all three clients with the
    TypeError of the property access. *)
Example null_body_is_a_type_error :
  let nullResponse :=
    {| status := 200; resp_text := Return (lit "null");
       resp_json := Return VNull |} in
  outcome (summarizeText (always nullResponse) "Text.")
  = Throw (TypeError "Cannot read properties of null (reading 'summary')").
Proof. reflexivity. Qed.

(* ------------------------------------------------------------------ *)
(** ** Activation *)

Lemma activation_too_short
    (extract : M ExtractionResult) (summarize : jsstring -> M JsValue)
    (show : jsstring -> JsValue -> M unit)
    (tr : list Event) (r : ExtractionResult) (ev : Event) :
  extract = (tr, Return r) ->
  List.length (text r) < 80 ->
  show "Summary Error" (VStr (errorText TooShortToSummarize)) = ([ev], Return tt) ->
  activationBody extract summarize show = (tr, Throw TooShortToSummarize) /\
  activation extract summarize show
  = (EvButtonBusy :: tr ++ [ev; EvButtonRestored], Return tt).
Proof.
  intros He Hlen Hshow.
  assert (Hb : activationBody extract summarize show = (tr, Throw TooShortToSummarize)).
  { unfold activationBody. rewrite He. cbv [bind throw].
    apply Nat.ltb_lt in Hlen. rewrite Hlen. now rewrite app_nil_r. }
  split; [exact Hb|].
  unfold activation. rewrite Hb. cbv [tryCatch]. rewrite Hshow.
  cbv [finally emit bind]. cbn [app]. now rewrite <- app_assoc.
Qed.

Lemma no_fetch_in_measures (evs : list Event) :
  forallb measures evs = true -> existsb is_fetch evs = false.
Proof.
  induction evs as [|ev evs IH]; [reflexivity|].
  cbn [forallb existsb]. intros H. apply andb_true_iff in H as [Hm H].
  rewrite (IH H). now destruct ev.
Qed.

Lemma existsb_is_fetch_frame (tr : list Event) (ev : Event) :
  existsb is_fetch tr = false -> is_fetch ev = false ->
  existsb is_fetch (EvButtonBusy :: tr ++ [ev; EvButtonRestored]) = false.
Proof.
  intros Ht Hev. cbn [existsb is_fetch orb]. rewrite existsb_app, Ht.
  cbn. now rewrite Hev.
Qed.

(** C8. In each of the three click handlers, when extraction returns a
    text of fewer than 80 characters the try block ends by throwing
    TooShortToSummarize, no request is sent to the backend during the
    activation, and the error is shown in the overlay.  The run of the
    toggle-aware handler never gives up control on this path, so it does
    not depend on what the storage listener does. *)
Theorem too_short_is_never_summarized (pg : Page) (backend : Backend)
    (r : ExtractionResult) :
  List.length (text r) < 80 ->
  (outcome (extractArticleText pg) = Return r ->
   outcome (activationBody (extractArticleText pg) (summarizeText backend)
              showOverlay) = Throw TooShortToSummarize /\
   existsb is_fetch (trace (onclick pg backend)) = false /\
   In (EvShowOverlay (headerHtml "Summary Error") tooShortOverlay)
      (trace (onclick pg backend))) /\
  (outcome (extractSimple pg) = Return r ->
   outcome (activationBody (extractSimple pg) (summarizeText_simple backend)
              showOverlay_simple) = Throw TooShortToSummarize /\
   forall removedMeanwhile,
     existsb is_fetch (trace (onTldrClick pg backend removedMeanwhile)) = false /\
     outcome (onTldrClick pg backend removedMeanwhile) = Return tt) /\
  (outcome (extractArticleText_readability pg) = Return r ->
   outcome (activationBody (extractArticleText_readability pg)
              (fun t => summarizeText_level backend t "detailed")
              showOverlay) = Throw TooShortToSummarize /\
   existsb is_fetch (trace (onButtonClick pg backend)) = false /\
   In (EvShowOverlay (headerHtml "Summary Error") tooShortOverlay)
      (trace (onButtonClick pg backend))).
Proof.
  intros Hlen. split; [|split]; intros Hr.
  - destruct (strategies_shape pg) as (evs & ttl & held & H & Hm & _).
    pose proof (extractArticleText_unfold pg _ _ _ H) as He.
    rewrite He in Hr. cbn [outcome snd] in Hr.
    destruct (activation_too_short (extractArticleText pg)
                (summarizeText backend) showOverlay _ r _
                (eq_trans He (f_equal _ Hr)) Hlen eq_refl) as [Hb Ha].
    unfold onclick. rewrite Hb, Ha. cbn [outcome trace fst snd].
    split; [reflexivity | split].
    + apply existsb_is_fetch_frame; [|reflexivity].
      cbn [existsb is_fetch orb]. now apply no_fetch_in_measures.
    + right. apply in_or_app. right. now left.
  - assert (He : extractSimple pg = ([EvReadability], Return r)).
    { revert Hr. unfold extractSimple.
      destruct (readability pg) as [e| |atitle tc];
        cbv [bind emit ret outcome snd]; cbn [app]; now intros ->. }
    destruct (activation_too_short (extractSimple pg)
                (summarizeText_simple backend) showOverlay_simple _ r _
                He Hlen eq_refl) as [Hb Ha].
    split; [now rewrite Hb|].
    intros m. unfold onTldrClick. rewrite Hb. split; reflexivity.
  - assert (He : extractArticleText_readability pg
                 = ([EvSleep 400; EvReadability], Return r)).
    { revert Hr. unfold extractArticleText_readability.
      destruct (readability pg) as [e| |atitle [tc|]];
        cbv [bind emit ret throw outcome snd]; cbn [app]; try discriminate.
      destruct (truthy tc); [now intros -> | discriminate]. }
    destruct (activation_too_short (extractArticleText_readability pg)
                (fun t => summarizeText_level backend t "detailed")
                showOverlay _ r _ He Hlen eq_refl) as [Hb Ha].
    unfold onButtonClick. rewrite Hb, Ha. cbn [outcome trace fst snd].
    split; [reflexivity | split; [reflexivity|]].
    right. right. right. now left.
Qed.

(** C8, on the page with one short paragraph. *)
Lemma too_short_is_never_summarized_witness :
  existsb is_fetch (trace (onclick notePage (always summaryResponse))) = false.
Proof.
  refine (proj1 (proj2 (proj1 (too_short_is_never_summarized notePage
            (always summaryResponse)
            {| title := lit "Note"; text := lit "A short note." |} _) eq_refl))).
  cbn. lia.
Defined.

(* ------------------------------------------------------------------ *)
(** ** Text collector *)

Lemma Sub_length (w s : jsstring) : Sub w s -> List.length w <= List.length s.
Proof. intros (a & b & ->). rewrite !length_app. lia. Qed.

Lemma Sub_nil_inv (w : jsstring) : Sub w [] -> w = [].
Proof.
  intros H. apply Sub_length in H. destruct w; [reflexivity | simpl in H; lia].
Qed.

(** An occurrence of [w] in [a ++ c :: b] avoids [c] when [w] does. *)
Lemma Sub_sep (w a b : jsstring) (c : ascii) :
  ~ In c w -> Sub w (a ++ c :: b) -> Sub w a \/ Sub w b.
Proof.
  intros Hc (p & q & H).
  apply app_eq_app in H as [l [[-> H] | [-> H]]].
  - symmetry in H. apply app_eq_app in H as [m [[-> H] | [-> H]]].
    + left. exists p, m. reflexivity.
    + destruct m as [|x m]; simpl in H.
      * left. exists p, []. now rewrite !app_nil_r.
      * injection H as <- _. exfalso. apply Hc, in_or_app. right. now left.
  - destruct l as [|x l]; simpl in H.
    + destruct w as [|y w]; simpl in H.
      * left. exists a, []. now rewrite app_nil_r.
      * injection H as -> _. exfalso. apply Hc. now left.
    + injection H as _ ->. right. now exists l, q.
Qed.

Lemma noNewline_forall (w : jsstring) :
  noNewline w -> forall c, In c w -> is_nl c = false.
Proof.
  unfold noNewline. intros H c Hin.
  destruct (is_nl c) eqn:E; [|reflexivity].
  assert (existsb is_nl w = true) by (apply existsb_exists; now exists c).
  congruence.
Qed.

Lemma noNewline_not_in (w : jsstring) : noNewline w -> ~ In nl w.
Proof.
  intros H Hin. apply (noNewline_forall w H) in Hin. discriminate.
Qed.

Lemma noNewline_tail (c : ascii) (w : jsstring) :
  noNewline (c :: w) -> noNewline w.
Proof. unfold noNewline. cbn. intros H. now apply orb_false_iff in H. Qed.

Lemma is_nl_eq (c : ascii) : is_nl c = true -> c = nl.
Proof. apply Ascii.eqb_eq. Qed.


Lemma flush_nl_length (k : nat) : List.length (flush_nl k) <= 2.
Proof.
  unfold flush_nl. destruct (3 <=? k) eqn:E; [simpl; lia|].
  apply Nat.leb_gt in E. rewrite repeat_length. lia.
Qed.





Lemma collapseNewlines_no_triple (k : nat) (s : jsstring) :
  ~ Sub [nl; nl; nl] (collapseNewlines_from k s).
Proof.
  revert k. induction s as [|c s IH]; intros k H;
    cbn [collapseNewlines_from] in H.
  - apply Sub_length in H. pose proof (flush_nl_length k). simpl in H. lia.
  - destruct (is_nl c) eqn:Hc; [now apply (IH (S k))|].
    apply Sub_sep in H as [H | H].
    + apply Sub_length in H. pose proof (flush_nl_length k). simpl in H. lia.
    + now apply (IH 0).
    + intros [E | [E | [E | []]]]; subst c; discriminate.
Qed.












(** The collected text of that thread. *)
Example collectText_bot_thread :
  collectText (Some botContainer)
  = lit "The story begins here." ++ [nl; nl] ++ lit "The story ends here.".
Proof. vm_compute. reflexivity. Qed.

(* ------------------------------------------------------------------ *)
(** * Further properties of the code *)

(** ** Closing normalisation (content.js:159) *)

Lemma dropWhile_snoc (f : ascii -> bool) (a : jsstring) (c : ascii) :
  f c = false -> dropWhile f (a ++ [c]) = dropWhile f a ++ [c].
Proof.
  intros Hc. induction a as [|x a IH]; simpl; [now rewrite Hc|].
  now destruct (f x).
Qed.

Lemma dropWhile_fixed (f : ascii -> bool) (s : jsstring) :
  (forall c t, s = c :: t -> f c = false) -> dropWhile f s = s.
Proof.
  destruct s as [|c t]; [reflexivity|]. intros H. simpl.
  now rewrite (H c t eq_refl).
Qed.

Lemma trim_head (s : jsstring) (c : ascii) (t : jsstring) :
  trim s = c :: t -> is_ws c = false.
Proof.
  unfold trim, trimEnd, trimStart.
  destruct (dropWhile_head is_ws s) as [-> | (c0 & t0 & -> & Hc0)].
  - discriminate.
  - cbn [rev]. rewrite dropWhile_snoc by exact Hc0.
    rewrite rev_app_distr. cbn. now intros [= <- _].
Qed.

Lemma trim_last (s : jsstring) (c : ascii) (t : jsstring) :
  rev (trim s) = c :: t -> is_ws c = false.
Proof.
  unfold trim, trimEnd. rewrite rev_involutive. intros H.
  destruct (dropWhile_head is_ws (rev (trimStart s))) as [E | (c0 & t0 & E & Hc0)];
    rewrite E in H; [discriminate | now injection H as <- _].
Qed.

Lemma trim_idem (s : jsstring) : trim (trim s) = trim s.
Proof.
  unfold trim at 1. unfold trimStart, trimEnd.
  rewrite (dropWhile_fixed is_ws (trim s)) by apply trim_head.
  rewrite (dropWhile_fixed is_ws (rev (trim s))) by apply trim_last.
  apply rev_involutive.
Qed.

Lemma after_last_nl_clean (s : jsstring) : existsb is_nl (after_last_nl s) = false.
Proof.
  induction s as [|c s IH]; [reflexivity|]. cbn [after_last_nl].
  destruct (existsb is_nl s) eqn:E; [exact IH|].
  destruct (is_nl c) eqn:Hc; [exact E|]. cbn. now rewrite Hc, E.
Qed.

Lemma Sub_pair_tail (y z : ascii) (s : jsstring) : Sub [y; z] s -> In z (tl s).
Proof.
  intros (a & b & ->). destruct a as [|h a]; cbn; [now left|].
  apply in_or_app. right. right. now left.
Qed.

Lemma rewrite_run_tail (run : jsstring) : ~ In nl (tl (rewrite_run run)).
Proof.
  destruct run as [|x r]; [intros []|]. cbn [rewrite_run].
  destruct (existsb is_nl r) eqn:E; cbn [tl]; intros Hin.
  - pose proof (after_last_nl_clean r) as Hc.
    apply (noNewline_not_in _ Hc). exact Hin.
  - apply (noNewline_not_in r E). exact Hin.
Qed.

(** After the second rewrite no whitespace character stands before a
    newline. *)
Lemma stripSpaceBeforeNewline_from_clean (run s : jsstring) (x : ascii) :
  is_ws x = true -> ~ Sub [x; nl] (stripSpaceBeforeNewline_from run s).
Proof.
  intros Hx. revert run. induction s as [|c s IH]; intros run H;
    cbn [stripSpaceBeforeNewline_from] in H.
  - apply Sub_pair_tail in H. now apply rewrite_run_tail in H.
  - destruct (is_ws c) eqn:Hc; [now apply IH in H|].
    apply Sub_sep in H as [H | H].
    + apply Sub_pair_tail in H. now apply rewrite_run_tail in H.
    + now apply IH in H.
    + intros [E | [E | []]]; subst c; [congruence | discriminate].
Qed.

Lemma repeat_nl_Sub (k : nat) (s : jsstring) :
  Sub [nl; nl] (repeat nl (S k) ++ nl :: s).
Proof.
  induction k as [|k IH]; cbn.
  - exists [], s. reflexivity.
  - apply Sub_cons. exact IH.
Qed.

(** On a text without two newlines in a row the third rewrite changes
    nothing. *)
Lemma collapseNewlines_from_fixed (k : nat) (s : jsstring) :
  k <= 1 -> ~ Sub [nl; nl] (repeat nl k ++ s) ->
  collapseNewlines_from k s = repeat nl k ++ s.
Proof.
  revert k. induction s as [|c s IH]; intros k Hk H; cbn [collapseNewlines_from].
  - rewrite app_nil_r. unfold flush_nl.
    destruct (3 <=? k) eqn:E; [apply Nat.leb_le in E; lia | reflexivity].
  - destruct (is_nl c) eqn:Hc.
    + apply is_nl_eq in Hc. subst c.
      destruct k as [|k]; [|exfalso; apply H, repeat_nl_Sub].
      apply (IH 1); [lia | exact H].
    + unfold flush_nl.
      destruct (3 <=? k) eqn:E; [apply Nat.leb_le in E; lia|].
      rewrite (IH 0); [reflexivity | lia |].
      cbn [repeat app]. intros Hs. apply H.
      apply Sub_app_r. now apply Sub_cons.
Qed.

Lemma replaceNbsp_clean (s : jsstring) : ~ In nbsp (replaceNbsp s).
Proof.
  unfold replaceNbsp. intros H. apply in_map_iff in H as (c & E & _).
  destruct (Ascii.eqb c nbsp) eqn:Hc; [discriminate|].
  apply Ascii.eqb_neq in Hc. congruence.
Qed.

Lemma after_last_nl_incl (s : jsstring) (c : ascii) :
  In c (after_last_nl s) -> In c s.
Proof.
  induction s as [|x s IH]; [intros []|]. cbn [after_last_nl].
  destruct (existsb is_nl s); [intros H; right; now apply IH|].
  destruct (is_nl x); [intros H; now right | easy].
Qed.

Lemma rewrite_run_incl (run : jsstring) (c : ascii) :
  In c (rewrite_run run) -> In c run \/ c = nl.
Proof.
  destruct run as [|x r]; [intros []|]. cbn [rewrite_run].
  destruct (existsb is_nl r); [|now left].
  intros [<- | H]; [now right | left; right; now apply after_last_nl_incl].
Qed.

Lemma stripSpaceBeforeNewline_from_incl (run s : jsstring) (c : ascii) :
  In c (stripSpaceBeforeNewline_from run s) -> In c run \/ In c s \/ c = nl.
Proof.
  revert run. induction s as [|x s IH]; intros run H;
    cbn [stripSpaceBeforeNewline_from] in H.
  - apply rewrite_run_incl in H. tauto.
  - destruct (is_ws x).
    + apply IH in H as [H | [H | H]]; [|right; left; now right|tauto].
      apply in_app_or in H as [H | [<- | []]]; [tauto | right; left; now left].
    + apply in_app_or in H as [H | [<- | H]].
      * apply rewrite_run_incl in H. tauto.
      * right. left. now left.
      * apply IH in H as [[] | [H | H]]; [right; left; now right | tauto].
Qed.

Lemma Sub_In (w s : jsstring) (c : ascii) : Sub w s -> In c w -> In c s.
Proof.
  intros (a & b & ->) H. apply in_or_app. right. apply in_or_app. now left.
Qed.

Lemma stripSpaceBeforeNewline_no_double (s : jsstring) :
  ~ Sub [nl; nl] (stripSpaceBeforeNewline s).
Proof. now apply stripSpaceBeforeNewline_from_clean. Qed.

Lemma finalNormalize_short (text : jsstring) :
  finalNormalize text = trim (stripSpaceBeforeNewline (replaceNbsp text)).
Proof.
  unfold finalNormalize, collapseNewlines.
  rewrite (collapseNewlines_from_fixed 0); [reflexivity | lia |].
  apply stripSpaceBeforeNewline_no_double.
Qed.

(** X1. The collapse of three or more newlines in the closing
    normalisation never changes anything: after the rewrite of
    whitespace before a newline no two newlines are adjacent, so the
    result is what the other three steps alone produce. *)
Theorem finalNormalize_third_rewrite_idle (text : jsstring) :
  collapseNewlines (stripSpaceBeforeNewline (replaceNbsp text))
  = stripSpaceBeforeNewline (replaceNbsp text) /\
  finalNormalize text = trim (stripSpaceBeforeNewline (replaceNbsp text)).
Proof.
  split; [|apply finalNormalize_short].
  unfold collapseNewlines.
  rewrite (collapseNewlines_from_fixed 0); [reflexivity | lia |].
  apply stripSpaceBeforeNewline_no_double.
Qed.

(** X2. The text the chain returns has no whitespace at either end, no
    non-breaking space, and no whitespace character before a newline; in
    particular it has no blank line. *)
Theorem finalNormalize_shape (text : jsstring) :
  trim (finalNormalize text) = finalNormalize text /\
  ~ In nbsp (finalNormalize text) /\
  (forall x, is_ws x = true -> includes (finalNormalize text) [x; nl] = false) /\
  includes (finalNormalize text) [nl; nl] = false.
Proof.
  assert (Hpair : forall x, is_ws x = true ->
                    includes (finalNormalize text) [x; nl] = false).
  { intros x Hx.
    destruct (includes (finalNormalize text) [x; nl]) eqn:E; [|reflexivity].
    exfalso. apply includes_iff in E.
    rewrite finalNormalize_short in E.
    apply (fun H => Sub_trans _ _ _ H (trim_Sub _)) in E.
    now apply stripSpaceBeforeNewline_from_clean in E. }
  split; [|split; [|split]].
  - unfold finalNormalize. apply trim_idem.
  - intros H. rewrite finalNormalize_short in H.
    apply (Sub_In _ _ _ (trim_Sub _)) in H.
    apply stripSpaceBeforeNewline_from_incl in H as [[] | [H | H]].
    + now apply replaceNbsp_clean in H.
    + discriminate.
  - exact Hpair.
  - now apply Hpair.
Qed.

(** ** What the closing normalisation does to a text *)






















(** ** Text collector (content.js:37-45) *)

Lemma join_In_Sub (sep p : jsstring) (parts : list jsstring) :
  In p parts -> Sub p (join sep parts).
Proof.
  induction parts as [|q rest IH]; [intros []|].
  intros [-> | H].
  - destruct rest; [apply Sub_refl|]. cbn [join].
    apply Sub_app_l, Sub_refl.
  - destruct rest as [|q' rest']; [destruct H|].
    change (join sep (q :: q' :: rest'))
      with (q ++ sep ++ join sep (q' :: rest')).
    apply Sub_app_r, Sub_app_r. now apply IH.
Qed.

Lemma collapseNewlines_skip (u r : jsstring) :
  noNewline u ->
  collapseNewlines_from 0 (u ++ r) = u ++ collapseNewlines_from 0 r.
Proof.
  induction u as [|c u IH]; intros Hu; [reflexivity|].
  cbn [app collapseNewlines_from].
  rewrite (noNewline_forall _ Hu c (or_introl eq_refl)).
  cbn [flush_nl Nat.leb repeat app].
  now rewrite IH by (eapply noNewline_tail; exact Hu).
Qed.

(** A newline-free piece of a text is a piece of the collapsed text. *)
Lemma collapseNewlines_Sub_keep (k : nat) (s w : jsstring) :
  noNewline w -> w <> [] -> Sub w s -> Sub w (collapseNewlines_from k s).
Proof.
  intros Hw Hne (a & b & ->). revert k.
  induction a as [|x a IH]; intros k.
  - destruct w as [|c w]; [contradiction|].
    cbn [app collapseNewlines_from].
    rewrite (noNewline_forall _ Hw c (or_introl eq_refl)).
    rewrite collapseNewlines_skip by (eapply noNewline_tail; exact Hw).
    exists (flush_nl k), (collapseNewlines_from 0 b). reflexivity.
  - cbn [app collapseNewlines_from].
    destruct (is_nl x); [apply IH|].
    apply Sub_app_r, Sub_cons, IH.
Qed.

Lemma dropWhile_keeps_Sub (f : ascii -> bool) (w s : jsstring) :
  (forall c t, w = c :: t -> f c = false) -> w <> [] ->
  Sub w s -> Sub w (dropWhile f s).
Proof.
  intros Hh Hne (a & b & ->). induction a as [|x a IH].
  - destruct w as [|c t]; [contradiction|]. cbn.
    rewrite (Hh c t eq_refl). exists [], b. reflexivity.
  - cbn. destruct (f x); [exact IH|].
    exists (x :: a), b. reflexivity.
Qed.

Lemma Sub_rev (w s : jsstring) : Sub w s -> Sub (rev w) (rev s).
Proof.
  intros (a & b & ->). exists (rev b), (rev a).
  now rewrite !rev_app_distr, app_assoc.
Qed.

(** A trimmed piece of a text is a piece of the trimmed text. *)
Lemma trim_keeps_Sub (w s : jsstring) :
  trim w <> [] -> Sub (trim w) s -> Sub (trim w) (trim s).
Proof.
  intros Hne H.
  change (trim s) with (rev (dropWhile is_ws (rev (dropWhile is_ws s)))).
  rewrite <- (rev_involutive (trim w)). apply Sub_rev.
  apply dropWhile_keeps_Sub.
  - apply trim_last.
  - intros E. apply Hne. rewrite <- (rev_involutive (trim w)), E. reflexivity.
  - apply Sub_rev. apply dropWhile_keeps_Sub; [apply trim_head | exact Hne | exact H].
Qed.

(** X4. Every element whose trimmed text is non-empty, not noisy and
    free of line breaks appears verbatim in the collected text. *)
Theorem collectText_keeps_clean_lines (els : Container) (el : jsstring) :
  In el els ->
  truthy (trim el) = true ->
  isNoiseParagraph (trim el) = false ->
  noNewline (trim el) ->
  includes (collectText (Some els)) (trim el) = true.
Proof.
  intros Hin Ht Hn Hw. apply includes_iff. cbn [collectText].
  assert (Hne : trim el <> []) by (intros E; rewrite E in Ht; discriminate).
  apply trim_keeps_Sub; [exact Hne|].
  apply collapseNewlines_Sub_keep; [exact Hw | exact Hne|].
  apply join_In_Sub. apply filter_In. split.
  - apply in_map. exact Hin.
  - now rewrite Ht, Hn.
Qed.

(** X4, on the first paragraph of the sample thread. *)
Lemma collectText_keeps_clean_lines_witness :
  includes (collectText (Some botContainer)) (lit "The story begins here.") = true.
Proof.
  apply (collectText_keeps_clean_lines botContainer (lit "The story begins here."));
    [now left | reflexivity | vm_compute; reflexivity | vm_compute; reflexivity].
Defined.

Lemma collapseNewlines_from_fixed3 (k : nat) (s : jsstring) :
  k <= 2 -> ~ Sub [nl; nl; nl] (repeat nl k ++ s) ->
  collapseNewlines_from k s = repeat nl k ++ s.
Proof.
  revert k. induction s as [|c s IH]; intros k Hk H; cbn [collapseNewlines_from].
  - rewrite app_nil_r. unfold flush_nl.
    destruct (3 <=? k) eqn:E; [apply Nat.leb_le in E; lia | reflexivity].
  - destruct (is_nl c) eqn:Hc.
    + apply is_nl_eq in Hc. subst c.
      assert (Hk' : k <= 1).
      { destruct k as [|[|[|k]]]; try lia.
        exfalso. apply H. exists [], s. reflexivity. }
      destruct k as [|[|k]]; [| |lia].
      * now apply (IH 1); [lia|].
      * now apply (IH 2); [lia|].
    + unfold flush_nl.
      destruct (3 <=? k) eqn:E; [apply Nat.leb_le in E; lia|].
      rewrite (IH 0); [reflexivity | lia |].
      cbn [repeat app]. intros Hs. apply H.
      apply Sub_app_r. now apply Sub_cons.
Qed.

(** X5. The collected text is in normal form: trimming it or collapsing
    its newlines again leaves it as it is. *)
Theorem collectText_normal_form (root : option Container) :
  trim (collectText root) = collectText root /\
  collapseNewlines (collectText root) = collectText root.
Proof.
  split.
  - destruct root; [apply trim_idem | reflexivity].
  - unfold collapseNewlines.
    rewrite (collapseNewlines_from_fixed3 0); [reflexivity | lia |].
    cbn [repeat app]. intros H.
    destruct root as [els|]; cbn [collectText] in H.
    + apply (fun E => Sub_trans _ _ _ E (trim_Sub _)) in H.
      now apply collapseNewlines_no_triple in H.
    + apply Sub_nil_inv in H. discriminate.
Qed.

(** ** Candidate scanner (content.js:63-85) *)

Lemma scanCandidates_invariant (seen cs : list Container) (b : Best) :
  scanInvariant seen b ->
  scanInvariant (seen ++ cs) (scanCandidates (List.length seen) cs b).
Proof.
  revert seen b. induction cs as [|el rest IH]; intros seen b Inv.
  - rewrite app_nil_r. exact Inv.
  - cbn [scanCandidates].
    replace (seen ++ el :: rest) with ((seen ++ [el]) ++ rest)
      by now rewrite <- app_assoc.
    replace (S (List.length seen)) with (List.length (seen ++ [el]))
      by (rewrite length_app; cbn; lia).
    apply IH. clear IH rest.
    destruct Inv as (Hlen & Hmax & Hbest).
    fold (score el).
    destruct (bestLen b <? score el) eqn:E.
    + apply Nat.ltb_lt in E. split; [reflexivity | split]; cbn [bestLen bestEl bestText].
      * intros c Hc. apply in_app_or in Hc as [Hc | [<- | []]]; [|lia].
        specialize (Hmax c Hc). lia.
      * exists el. split; [|split; [reflexivity | split; [lia|]]].
        -- rewrite nth_error_app2 by lia. now rewrite Nat.sub_diag.
        -- intros j c' Hj Hn. rewrite nth_error_app1 in Hn by exact Hj.
           apply nth_error_In in Hn. specialize (Hmax c' Hn). lia.
    + apply Nat.ltb_ge in E. split; [exact Hlen | split].
      * intros c Hc. apply in_app_or in Hc as [Hc | [<- | []]]; [now apply Hmax | exact E].
      * destruct (bestEl b) as [i|]; [|exact Hbest].
        destruct Hbest as (c & Hn & Ht & Hpos & Hfirst).
        assert (Hi : i < List.length seen)
          by (apply nth_error_Some; rewrite Hn; discriminate).
        exists c. split; [|split; [exact Ht | split; [exact Hpos|]]].
        -- now rewrite nth_error_app1.
        -- intros j c' Hj Hn'. rewrite nth_error_app1 in Hn' by lia.
           now apply (Hfirst j c').
Qed.

(** X6. The scanner returns a candidate of greatest score, the first one
    in the order of the set among those of that score, together with its
    text and score; when no candidate has any text it returns no element,
    the empty text and length zero. *)
Theorem largestTextBlock_best (pg : Page) :
  let b := largestTextBlock pg in
  bestLen b = normalizedLength (bestText b) /\
  (forall c, In c (candidates pg) -> score c <= bestLen b) /\
  match bestEl b with
  | None => bestLen b = 0 /\ bestText b = []
  | Some i =>
      exists c, nth_error (candidates pg) i = Some c /\
                bestText b = collectText (Some c) /\
                0 < bestLen b /\
                forall j c', j < i -> nth_error (candidates pg) j = Some c' ->
                             score c' < bestLen b
  end.
Proof.
  cbv zeta. unfold largestTextBlock.
  apply (scanCandidates_invariant [] (candidates pg)).
  split; [reflexivity | split; [intros c [] | split; reflexivity]].
Qed.

(** X6, on the sample story page: the second candidate wins. *)
Example largestTextBlock_story :
  bestEl (largestTextBlock storyPage) = Some 1 /\
  bestLen (largestTextBlock storyPage) = 509.
Proof. split; vm_compute; reflexivity. Qed.

(** ** Site extractor (content.js:88-120) *)

(** X7. The text of the site extractor is the first non-empty one among
    the texts collected from the post body, the rich body of the
    shreddit-post element, the old markdown body and the main region, in
    this order; its title is empty only when the document title is. *)
Theorem extractReddit_first_nonempty (pg : Page) :
  text (extractReddit pg)
  = firstTruthy [collectText (post_content pg); collectText (richBody pg);
                 collectText (usertext_md pg); collectText (main_region pg)] /\
  (title (extractReddit pg) = [] -> docTitle pg = []).
Proof.
  split.
  - unfold extractReddit, richBody.
    generalize (collectText (main_region pg)); intros tm.
    generalize (orElse (trim (optStr (h1_text pg)))
                  (trim (stripRedditSuffix (docTitle pg)))); intros ti.
    destruct (post_content pg) as [pc|];
      [generalize (collectText (Some pc)); intros tp|];
      (destruct (shreddit_post pg) as [root|];
       [destruct (rich_body root) as [rich|];
        [generalize (collectText (Some rich)); intros tr|]|]);
      (destruct (usertext_md pg) as [md|];
       [generalize (collectText (Some md)); intros tmd|]);
      change (collectText None) with ([] : jsstring);
      repeat match goal with
             | t : jsstring |- _ => destruct t
             end;
      reflexivity.
  - intros H.
    assert (Ht : exists t2, title (extractReddit pg) = orElse t2 (docTitle pg)).
    { unfold extractReddit.
      repeat match goal with
             | |- context [let '(_, _) := ?p in _] => destruct p
             end.
      eexists. reflexivity. }
    destruct Ht as [t2 Ht]. rewrite Ht in H. unfold orElse in H.
    destruct (truthy t2) eqn:E; [subst t2; discriminate | exact H].
Qed.

(** ** Extraction chain (content.js:123-161) *)

(** X8. On a page outside the recognised site family the site extractor
    is not called; when the scanner's text has a normalised length of at
    least 400, Readability is not called either, and the chain returns
    the scanner's text (after the closing normalisation) under the
    document title. *)
Theorem scanner_text_suffices (pg : Page) :
  endsWith (hostname pg) "reddit.com" = false ->
  400 <= normalizedLength (bestText (largestTextBlock pg)) ->
  extractArticleText pg =
  ([EvSleep 300; EvExpandCollapsers; EvLargestTextBlock],
   Return {| title := docTitle pg;
             text := finalNormalize (bestText (largestTextBlock pg)) |}).
Proof.
  intros Hhost Hlen.
  assert (Ht : truthy (bestText (largestTextBlock pg)) = true)
    by (apply normalizedLength_truthy; lia).
  assert (H4 : (normalizedLength (bestText (largestTextBlock pg)) <? 400) = false)
    by (apply Nat.ltb_ge; exact Hlen).
  assert (Hl : (0 <? List.length (bestText (largestTextBlock pg))) = true).
  { apply Nat.ltb_lt. destruct (bestText (largestTextBlock pg)); [discriminate|].
    cbn. lia. }
  rewrite (extractArticleText_unfold pg
             [EvSleep 300; EvExpandCollapsers; EvLargestTextBlock]
             [] (bestText (largestTextBlock pg))).
  - now rewrite Ht.
  - unfold strategies. rewrite Hhost.
    cbv [bind emit call ret]. cbn [app truthy negb orb List.length].
    rewrite Ht, Hl. cbn [andb]. rewrite Ht, H4. reflexivity.
Qed.

(** X8, on the sample story page. *)
Lemma scanner_text_suffices_witness :
  trace (extractArticleText storyPage)
  = [EvSleep 300; EvExpandCollapsers; EvLargestTextBlock].
Proof.
  refine (f_equal fst (scanner_text_suffices storyPage _ _)).
  - vm_compute. reflexivity.
  - apply Nat.leb_le. vm_compute. reflexivity.
Defined.

(** The strategies, step by step: what the site extractor leaves, what
    is held after the scanner, and whether each step is taken. *)
Lemma strategies_steps (pg : Page) :
  let onSite := endsWith (hostname pg) "reddit.com" in
  let site := if onSite then extractReddit pg
              else {| title := []; text := [] |} in
  let big := bestText (largestTextBlock pg) in
  let scan := negb (truthy (text site)) || (normalizedLength (text site) <? 800) in
  let t2 := if scan
            then (if truthy big && (List.length (text site) <? List.length big)
                  then big else text site)
            else text site in
  let read := negb (truthy t2) || (normalizedLength t2 <? 400) in
  strategies pg =
  ([EvSleep 300; EvExpandCollapsers]
     ++ (if onSite then [EvExtractReddit] else [])
     ++ (if scan then [EvLargestTextBlock] else [])
     ++ (if read then [EvReadability] else []),
   Return (if read then readabilityStep pg (title site) t2
           else (title site, t2))).
Proof.
  cbv zeta. unfold strategies.
  destruct (endsWith (hostname pg) "reddit.com");
    cbv [bind emit call ret]; cbn [app title text];
    match goal with
    | |- context [if ?c then ([EvLargestTextBlock], _) else _] => destruct c
    end;
    cbn [app];
    match goal with
    | |- context [if ?c then ([EvReadability], _) else _] => destruct c
    end;
    cbn [app];
    try reflexivity;
    match goal with
    | |- (_, Return ?p) = _ => now rewrite (surjective_pairing p)
    end.
Qed.

Lemma readabilityStep_longest (pg : Page) (ttl txt : jsstring) :
  let held := snd (readabilityStep pg ttl txt) in
  List.length txt <= List.length held /\
  (forall atitle tc,
     readability pg = ParseArticle atitle (Some tc) -> truthy tc = true ->
     List.length (trim tc) <= List.length held) /\
  (held = txt \/
   exists atitle tc,
     readability pg = ParseArticle atitle (Some tc) /\ held = trim tc).
Proof.
  cbv zeta. unfold readabilityStep.
  destruct (readability pg) as [e| |atitle [tc|]];
    try (cbn [snd]; split; [lia | split; [discriminate | now left]]).
  destruct (truthy tc) eqn:Etc; cbn [snd].
  - destruct (List.length txt <? List.length (trim tc)) eqn:E.
    + apply Nat.ltb_lt in E. split; [lia | split].
      * intros a t [= _ <-] _. lia.
      * right. now exists atitle, tc.
    + apply Nat.ltb_ge in E. split; [lia | split; [|now left]].
      intros a t [= _ <-] _. exact E.
  - split; [lia | split; [|now left]].
    intros a t [= _ <-] Ht. congruence.
Qed.

Lemma scan_longest (big txt : jsstring) :
  let held := if truthy big && (List.length txt <? List.length big)
              then big else txt in
  List.length txt <= List.length held /\
  List.length big <= List.length held /\ (held = txt \/ held = big).
Proof.
  cbv zeta. destruct (truthy big) eqn:Eb; cbn [andb].
  - destruct (List.length txt <? List.length big) eqn:E.
    + apply Nat.ltb_lt in E. repeat split; try lia. now right.
    + apply Nat.ltb_ge in E. repeat split; try lia. now left.
  - apply truthy_false in Eb. rewrite Eb. cbn. repeat split; try lia. now left.
Qed.

(** X9. The strategies end holding a text that is at least as long as
    the text of every strategy they consulted, and that is the empty
    string or the text of one of them. *)
Theorem strategies_hold_longest (pg : Page) :
  exists ttl held,
    outcome (strategies pg) = Return (ttl, held) /\
    (In EvExtractReddit (trace (strategies pg)) ->
     List.length (text (extractReddit pg)) <= List.length held) /\
    (In EvLargestTextBlock (trace (strategies pg)) ->
     List.length (bestText (largestTextBlock pg)) <= List.length held) /\
    (In EvReadability (trace (strategies pg)) ->
     forall atitle tc,
       readability pg = ParseArticle atitle (Some tc) -> truthy tc = true ->
       List.length (trim tc) <= List.length held) /\
    (held = [] \/ held = text (extractReddit pg)
     \/ held = bestText (largestTextBlock pg)
     \/ exists atitle tc,
          readability pg = ParseArticle atitle (Some tc) /\ held = trim tc).
Proof.
  rewrite (strategies_steps pg). cbv zeta.
  set (big := bestText (largestTextBlock pg)).
  set (site := if endsWith (hostname pg) "reddit.com" then extractReddit pg
               else {| title := []; text := [] |}).
  assert (Hsite : (In EvExtractReddit
                     (if endsWith (hostname pg) "reddit.com"
                      then [EvExtractReddit] else []) ->
                   text site = text (extractReddit pg)) /\
                  (text site = [] \/ text site = text (extractReddit pg))).
  { unfold site. destruct (endsWith (hostname pg) "reddit.com").
    - now split; [|right].
    - split; [intros [] | now left]. }
  destruct Hsite as [Hsite Hsite'].
  generalize dependent site. intros site.
  generalize (text site) as s0. generalize (title site) as ti. intros ti s0.
  destruct (endsWith (hostname pg) "reddit.com") eqn:Ehost; intros Hsite Hsite';
    (set (scan := negb (truthy s0) || (normalizedLength s0 <? 800));
     destruct (scan_longest big s0) as (Hs1 & Hs2 & Hs3);
     set (picked := if truthy big && (List.length s0 <? List.length big)
                    then big else s0) in *;
     clearbody picked;
     set (t2 := if scan then picked else s0);
     assert (Ht2 : List.length s0 <= List.length t2 /\
                   (scan = true -> List.length big <= List.length t2) /\
                   (t2 = s0 \/ t2 = big))
       by (unfold t2; destruct scan;
           [split; [lia | split; [intros _; lia | tauto]]
           |split; [lia | split; [discriminate | now left]]]);
     clearbody t2; destruct Ht2 as (Ha & Hb & Hc);
     set (read := negb (truthy t2) || (normalizedLength t2 <? 400));
     destruct (readabilityStep_longest pg ti t2) as (Hr1 & Hr2 & Hr3);
     destruct (readabilityStep pg ti t2) as [rt rx]; cbn [snd] in Hr1, Hr2, Hr3;
     destruct scan, read; cbn [app trace outcome fst snd];
     (eexists; eexists; split; [reflexivity|]);
     (split; [|split; [|split]]);
     try (intros Hin; cbn in Hin; exfalso; intuition discriminate);
     try (intros _)).
  all: try (rewrite <- (Hsite (or_introl eq_refl))).
  all: try lia.
  all: try (specialize (Hb eq_refl); lia).
  all: try exact Hr2.
  all: try (intros atitle tc; exfalso; assumption).
  all: repeat match goal with
              | H : _ \/ _ |- _ => destruct H
              | H : exists _, _ |- _ => destruct H
              | H : _ /\ _ |- _ => destruct H
              end; subst; eauto 8.
Qed.

(** X10. A result of the chain has an empty title only when the document
    title is empty. *)
Theorem extraction_title_falls_back (pg : Page) (r : ExtractionResult) :
  outcome (extractArticleText pg) = Return r ->
  title r = [] -> docTitle pg = [].
Proof.
  intros H Ht.
  destruct (strategies_shape pg) as (evs & ttl & held & Hs & _ & _).
  rewrite (extractArticleText_unfold pg _ _ _ Hs) in H. cbn [outcome snd] in H.
  destruct (truthy held); [|discriminate].
  injection H as <-. cbn [title] in Ht.
  destruct (truthy ttl) eqn:E; [subst ttl; discriminate | exact Ht].
Qed.

(** X10, on the sample page without a title. *)
Lemma extraction_title_falls_back_witness : docTitle untitledPage = [].
Proof.
  apply (extraction_title_falls_back untitledPage
           {| title := []; text := lit "A paragraph without a heading." |});
    reflexivity.
Defined.

(** ** Summarization clients *)

Ltac client_cases :=
  cbv [post bind emit lift tryCatch ret throw trace fst];
  match goal with
  | |- context [match ?b ?r with FetchRejects _ => _ | FetchResolves _ => _ end] =>
      destruct (b r) as [?e|?resp]
  end; [reflexivity|];
  match goal with |- context [ok ?r] => destruct (ok r) end; cbn [negb];
  repeat match goal with
         | |- context [match ?x with Return _ => _ | Throw _ => _ end] =>
             destruct x
         end;
  repeat match goal with
         | |- context [if ?c then _ else _] => destruct c
         end;
  reflexivity.

Lemma summarizeText_trace (backend : Backend) (text : jsstring) :
  trace (summarizeText backend text) = [EvFetch (requestOf text)].
Proof. unfold summarizeText, requestOf. client_cases. Qed.

Lemma summarizeText_simple_trace (backend : Backend) (text : jsstring) :
  trace (summarizeText_simple backend text) = [EvFetch (requestOf_simple text)].
Proof. unfold summarizeText_simple, requestOf_simple. client_cases. Qed.

Lemma summarizeText_level_trace (backend : Backend) (text level : jsstring) :
  trace (summarizeText_level backend text level)
  = [EvFetch (requestOf_level text level)].
Proof.
  unfold summarizeText_level, requestOf_level. client_cases.
Qed.

(** X11. Whatever the backend does, each client sends exactly one
    request, and the request carries the text it was given unchanged:
    there is no retry and no second attempt. *)
Theorem clients_send_one_request (backend : Backend) (text level : jsstring) :
  trace (summarizeText backend text) = [EvFetch (requestOf text)] /\
  trace (summarizeText_simple backend text) = [EvFetch (requestOf_simple text)] /\
  trace (summarizeText_level backend text level)
  = [EvFetch (requestOf_level text level)] /\
  req_text (requestOf text) = text /\
  req_text (requestOf_simple text) = text /\
  req_text (requestOf_level text level) = text.
Proof.
  repeat split;
    [apply summarizeText_trace | apply summarizeText_simple_trace
     | apply summarizeText_level_trace].
Qed.

(** X12. A rejected fetch and a body that is not JSON are passed on as
    they are: the client fails with the very error of the rejection. *)
Theorem clients_pass_transport_errors
    (backend : Backend) (text level : jsstring) (e : JsError) :
  (backend (requestOf text) = FetchRejects e ->
   outcome (summarizeText backend text) = Throw e) /\
  (backend (requestOf_simple text) = FetchRejects e ->
   outcome (summarizeText_simple backend text) = Throw e) /\
  (backend (requestOf_level text level) = FetchRejects e ->
   outcome (summarizeText_level backend text level) = Throw e) /\
  (forall resp,
     ok resp = true -> resp_json resp = Throw e ->
     (backend (requestOf text) = FetchResolves resp ->
      outcome (summarizeText backend text) = Throw e) /\
     (backend (requestOf_simple text) = FetchResolves resp ->
      outcome (summarizeText_simple backend text) = Throw e) /\
     (backend (requestOf_level text level) = FetchResolves resp ->
      outcome (summarizeText_level backend text level) = Throw e)).
Proof.
  unfold summarizeText, summarizeText_simple, summarizeText_level.
  fold (requestOf text) (requestOf_simple text) (requestOf_level text level).
  split; [|split; [|split]].
  1-3: intros H; cbv [post bind emit]; now rewrite H.
  intros resp Hok Hj.
  repeat split; intros H; rewrite (post_ok _ _ _ H Hok);
    cbv [bind lift outcome snd]; now rewrite Hj.
Qed.

(** X12, with a connection that is refused. *)
Lemma clients_pass_transport_errors_witness :
  outcome (summarizeText (fun _ => FetchRejects (TypeError "Failed to fetch"))
             "Text.")
  = Throw (TypeError "Failed to fetch").
Proof.
  apply (proj1 (clients_pass_transport_errors
                  (fun _ => FetchRejects (TypeError "Failed to fetch"))
                  "Text." "detailed" (TypeError "Failed to fetch"))).
  reflexivity.
Defined.

(** X13. A summary returned by the client of content.js:164 or by the
    client of the shadow-DOM variant is never falsy; the client of the
    simple variant returns a truthy value or the empty string. *)
Theorem returned_summary_is_truthy
    (backend : Backend) (text level : jsstring) (v : JsValue) :
  (outcome (summarizeText backend text) = Return v -> is_truthy v = true) /\
  (outcome (summarizeText_level backend text level) = Return v ->
   is_truthy v = true) /\
  (outcome (summarizeText_simple backend text) = Return v ->
   is_truthy v = true \/ v = VStr []).
Proof.
  unfold summarizeText, summarizeText_simple, summarizeText_level.
  repeat split;
    cbv [post bind emit lift tryCatch ret throw outcome snd];
    match goal with |- context [backend ?r] => destruct (backend r) as [e|resp] end;
    try discriminate;
    destruct (ok resp); cbn [negb];
    try (destruct (resp_text resp); discriminate);
    destruct (resp_json resp) as [data|e]; try discriminate;
    destruct (getSummary data) as [s|e]; try discriminate;
    destruct (is_truthy s) eqn:E; cbn; try discriminate;
    intros [= <-]; auto.
Qed.

(** X13, on the sample response with a summary. *)
Lemma returned_summary_is_truthy_witness :
  is_truthy (VStr "Short.") = true.
Proof.
  apply (proj1 (returned_summary_is_truthy (always summaryResponse)
                  "Text." "detailed" (VStr "Short."))).
  reflexivity.
Defined.

(** ** Click handlers *)

Lemma filter_measures_overlay (evs : list Event) :
  forallb measures evs = true ->
  filter is_overlay evs = [] /\ filter is_fetch evs = [].
Proof.
  induction evs as [|ev evs IH]; [now split|].
  cbn [forallb filter]. intros H. apply andb_true_iff in H as [Hm H].
  destruct (IH H) as [-> ->]. now destruct ev.
Qed.

(** The frame of an activation, for an extraction that neither fetches
    nor shows anything and a client that sends one request. *)
Lemma activation_framed
    (extract : M ExtractionResult) (summarize : jsstring -> M JsValue)
    (show : jsstring -> JsValue -> M unit) :
  filter is_overlay (trace extract) = [] ->
  filter is_fetch (trace extract) = [] ->
  (forall t, exists req, trace (summarize t) = [EvFetch req]) ->
  (forall t b, exists h, show t b = ([EvShowOverlay h b], Return tt)) ->
  framed (activation extract summarize show).
Proof.
  intros Ho Hf Hsum Hshow.
  destruct extract as [tr [r|e]]; cbn [trace fst] in Ho, Hf.
  - unfold activation, activationBody. cbv [bind emit throw].
    destruct (List.length (text r) <? 80).
    + cbv [tryCatch].
      destruct (Hshow (lit "Summary Error") (VStr (errorText TooShortToSummarize)))
        as [h ->].
      cbv [finally]. split; [reflexivity|].
      exists (tr ++ [] ++ [EvShowOverlay h (VStr (errorText TooShortToSummarize))]).
      cbn [trace fst app]. split; [now rewrite !app_nil_r, <- !app_assoc|].
      rewrite !filter_app, Ho, Hf. cbn. lia.
    + destruct (Hsum (text r)) as [req Hreq].
      destruct (summarize (text r)) as [tr2 [v|e]]; cbn [trace fst] in Hreq; subst tr2.
      * destruct (Hshow (title r) v) as [h ->].
        cbv [tryCatch finally]. split; [reflexivity|].
        exists (tr ++ [EvFetch req] ++ [EvShowOverlay h v]).
        cbn [trace fst app]. split; [now rewrite <- !app_assoc|].
        rewrite !filter_app, Ho, Hf. cbn. lia.
      * cbv [tryCatch].
        destruct (Hshow (lit "Summary Error") (VStr (errorText e))) as [h ->].
        cbv [finally]. split; [reflexivity|].
        exists ((tr ++ [EvFetch req]) ++ [EvShowOverlay h (VStr (errorText e))]).
        cbn [trace fst app]. split; [now rewrite <- !app_assoc|].
        rewrite !filter_app, Ho, Hf. cbn. lia.
  - unfold activation, activationBody. cbv [bind emit throw tryCatch].
    destruct (Hshow (lit "Summary Error") (VStr (errorText e))) as [h ->].
    cbv [finally]. split; [reflexivity|].
    exists (tr ++ [EvShowOverlay h (VStr (errorText e))]).
    cbn [trace fst app]. split; [now rewrite <- !app_assoc|].
    rewrite !filter_app, Ho, Hf. cbn. lia.
Qed.

Lemma extractArticleText_quiet (pg : Page) :
  filter is_overlay (trace (extractArticleText pg)) = [] /\
  filter is_fetch (trace (extractArticleText pg)) = [].
Proof.
  destruct (strategies_shape pg) as (evs & ttl & held & H & Hm & _).
  rewrite (extractArticleText_unfold pg _ _ _ H). cbn [trace fst filter is_overlay is_fetch].
  now apply filter_measures_overlay.
Qed.

Lemma extractSimple_trace (pg : Page) : trace (extractSimple pg) = [EvReadability].
Proof. unfold extractSimple. now destruct (readability pg) as [e| |atitle tc]. Qed.

Lemma extractArticleText_readability_trace (pg : Page) :
  trace (extractArticleText_readability pg) = [EvSleep 400; EvReadability].
Proof.
  unfold extractArticleText_readability.
  destruct (readability pg) as [e| |atitle [tc|]]; try reflexivity.
  now destruct (truthy tc).
Qed.

(** The simple variant's handler with the button still in place is the
    common activation. *)
Lemma onTldrClick_in_place (pg : Page) (backend : Backend) :
  onTldrClick pg backend false
  = activation (extractSimple pg) (summarizeText_simple backend) showOverlay_simple.
Proof. unfold onTldrClick, activation. now rewrite andb_false_r. Qed.

Lemma extractSimple_returns (pg : Page) :
  exists r, extractSimple pg = ([EvReadability], Return r).
Proof.
  unfold extractSimple.
  destruct (readability pg) as [e| |atitle tc]; eexists; reflexivity.
Qed.

(** X14. Every run of the handler of content.js and of the handler of
    the shadow-DOM button returns normally, disables the button first and
    restores it last, shows exactly one overlay (the summary or an error)
    and sends at most one request; no error escapes them.  The handler of
    the simple variant does the same as long as the button is not removed
    while the request is pending.  When it is removed in that time, a run
    that sends no request is unchanged, and a run that sends one ends in
    the TypeError of the finally block after the overlay is shown: the
    button is not restored and the error escapes. *)
Theorem handlers_always_restore (pg : Page) (backend : Backend) :
  framed (onclick pg backend) /\
  framed (onTldrClick pg backend false) /\
  framed (onButtonClick pg backend) /\
  ((existsb is_fetch (trace (onTldrClick pg backend true)) = false /\
    onTldrClick pg backend true = onTldrClick pg backend false) \/
   (exists req header body,
      onTldrClick pg backend true
      = ([EvButtonBusy; EvReadability; EvFetch req; EvShowOverlay header body],
         Throw nullButtonError))).
Proof.
  split; [|split; [|split]].
  - apply activation_framed; try apply extractArticleText_quiet.
    + intros t. eexists. apply summarizeText_trace.
    + intros t b. eexists. reflexivity.
  - rewrite onTldrClick_in_place.
    apply activation_framed; rewrite ?extractSimple_trace; try reflexivity.
    + intros t. eexists. apply summarizeText_simple_trace.
    + intros t b. eexists. reflexivity.
  - apply activation_framed;
      rewrite ?extractArticleText_readability_trace; try reflexivity.
    + intros t. eexists. apply summarizeText_level_trace.
    + intros t b. eexists. reflexivity.
  - unfold onTldrClick, activationBody.
    destruct (extractSimple_returns pg) as [r ->].
    cbv [bind emit throw]. destruct (List.length (text r) <? 80).
    + left. split; reflexivity.
    + right. pose proof (summarizeText_simple_trace backend (text r)) as Hreq.
      destruct (summarizeText_simple backend (text r)) as [tr2 [v|e]];
        cbn [trace fst] in Hreq; subst tr2;
        do 3 eexists; reflexivity.
Qed.



(** X16. In the simple variant a 2xx answer without a usable summary is
    not reported as an error: the handler shows an overlay with an empty
    body under the title of the extraction, and restores the button
    unless the button was removed while the request was pending. *)
Theorem onTldrClick_shows_empty_summary
    (pg : Page) (backend : Backend) (removedMeanwhile : bool)
    (r : ExtractionResult) (resp : Response) (data summary : JsValue) :
  outcome (extractSimple pg) = Return r ->
  80 <= List.length (text r) ->
  backend (requestOf_simple (text r)) = FetchResolves resp ->
  ok resp = true ->
  resp_json resp = Return data ->
  getSummary data = Return summary ->
  is_truthy summary = false ->
  exists header,
    trace (onTldrClick pg backend removedMeanwhile)
    = [EvButtonBusy; EvReadability; EvFetch (requestOf_simple (text r));
       EvShowOverlay header (VStr [])]
      ++ (if removedMeanwhile then [] else [EvButtonRestored]) /\
    Sub (escapeHtml (title r)) header.
Proof.
  intros He Hlen Hb Hok Hj Hs Ht.
  unfold onTldrClick, activationBody, summarizeText_simple.
  unfold requestOf_simple in Hb |- *.
  pose proof (extractSimple_trace pg) as Htr.
  destruct (extractSimple pg) as [tr o]. cbn [outcome snd trace fst] in He, Htr.
  subst o tr.
  apply Nat.ltb_ge in Hlen.
  cbv [bind emit]. rewrite Hlen. rewrite (post_ok _ _ _ Hb Hok).
  cbv [lift]. rewrite Hj, Hs, Ht.
  cbv [ret showOverlay_simple emit tryCatch trace fst]. cbn [app existsb is_fetch orb andb].
  eexists. split.
  - destruct removedMeanwhile; cbv [finally throw emit]; cbn [app fst]; reflexivity.
  - apply Sub_app_r, Sub_cons, Sub_app_r, Sub_cons, Sub_app_r, Sub_app_l, Sub_refl.
Qed.

(** X16, on the sample page with the response without a summary, the
    button staying in place. *)
Lemma onTldrClick_shows_empty_summary_witness :
  exists header,
    trace (onTldrClick readablePage (always emptyObjectResponse) false)
    = [EvButtonBusy; EvReadability;
       EvFetch (requestOf_simple (repeat "c"%char 120));
       EvShowOverlay header (VStr []); EvButtonRestored] /\
    Sub (escapeHtml "Headline") header.
Proof.
  apply (onTldrClick_shows_empty_summary readablePage (always emptyObjectResponse)
           false
           {| title := lit "Headline"; text := repeat "c"%char 120 |}
           emptyObjectResponse (VObj []) VUndefined); try reflexivity.
  apply Nat.leb_le. vm_compute. reflexivity.
Defined.

(** X17. When extraction returns a text of at least 80 characters and
    the backend answers the request for it with a status outside
    200-299, the handler of content.js sends that one request and shows
    one overlay titled Summary Error whose body gives the status code
    and the body of the response, then restores the button. *)
Theorem onclick_shows_backend_error
    (pg : Page) (backend : Backend) (r : ExtractionResult) (resp : Response) :
  outcome (extractArticleText pg) = Return r ->
  80 <= List.length (text r) ->
  backend (requestOf (text r)) = FetchResolves resp ->
  ok resp = false ->
  trace (onclick pg backend)
  = EvButtonBusy :: trace (extractArticleText pg)
      ++ [EvFetch (requestOf (text r));
          EvShowOverlay (headerHtml "Summary Error")
            (VStr (lit "Backend error " ++ decimal (status resp) ++ lit ": "
                     ++ match resp_text resp with
                        | Return s => s
                        | Throw _ => []
                        end));
          EvButtonRestored].
Proof.
  intros He Hlen Hb Hok.
  unfold onclick, activation, activationBody, summarizeText.
  unfold requestOf in Hb |- *.
  destruct (extractArticleText pg) as [tr o]. cbn [outcome snd] in He. subst o.
  apply Nat.ltb_ge in Hlen.
  cbv [bind emit]. rewrite Hlen. rewrite (post_not_ok _ _ _ Hb Hok).
  cbv [showOverlay emit tryCatch finally trace fst BackendError errorText orElse].
  cbn [app truthy]. now rewrite <- !app_assoc.
Qed.

(** X17, on the sample page with the failing backend. *)
Lemma onclick_shows_backend_error_witness :
  In (EvShowOverlay (headerHtml "Summary Error")
        (VStr "Backend error 500: Internal Server Error"))
     (trace (onclick readablePage (always serverErrorResponse))).
Proof.
  rewrite (onclick_shows_backend_error readablePage (always serverErrorResponse)
             {| title := lit "Headline"; text := repeat "c"%char 120 |}
             serverErrorResponse); try reflexivity.
  - right. apply in_or_app. right. right. now left.
  - apply Nat.leb_le. vm_compute. reflexivity.
Defined.

(** ** Placement engine, further (part_000:172-232) *)

Module PlacementExtra.
Import Placement PlacementFacts.

Lemma ensureVisible_style (f : HostStyle -> bool) (st : HostStyle) :
  style (ensureVisible f st)
  = match find f searchOrder with
    | Some p => p
    | None => slid 500
    end.
Proof.
  rewrite ensureVisible_spec. cbn [style]. rewrite last_upto.
  fold searchOrder. now destruct (find f searchOrder).
Qed.

Lemma ensureVisible_in (f : HostStyle -> bool) (st : HostStyle) :
  In (style (ensureVisible f st)) searchOrder.
Proof.
  rewrite ensureVisible_style.
  destruct (find f searchOrder) as [p|] eqn:E.
  - now apply find_some in E.
  - cbn. tauto.
Qed.

(** X18. The position a search selects is always one of the nine
    candidate positions, and it is clickable exactly when at least one
    of the nine is: the engine never settles on an occluded position
    while a clickable candidate exists. *)
Theorem ensureVisible_finds_clickable (f : HostStyle -> bool) (st : HostStyle) :
  In (style (ensureVisible f st)) searchOrder /\
  f (style (ensureVisible f st)) = existsb f searchOrder.
Proof.
  split; [apply ensureVisible_in|].
  rewrite ensureVisible_style.
  destruct (find f searchOrder) as [p|] eqn:E.
  - apply find_some in E as [Hin Hp]. rewrite Hp. symmetry.
    apply existsb_exists. now exists p.
  - assert (Hall : forall x, In x searchOrder -> f x = false)
      by (intros x Hx; now apply (find_none f searchOrder E)).
    rewrite (Hall (slid 500)) by (cbn; tauto).
    symmetry. destruct (existsb f searchOrder) eqn:Ex; [|reflexivity].
    apply existsb_exists in Ex as (x & Hx & Hfx).
    rewrite (Hall x Hx) in Hfx. discriminate.
Qed.

(** X19. While the page does not change, repeating the search leaves the
    host where the first search put it: scroll, resize and mutation
    signals do not make the button wander. *)
Theorem relocate_stable (f : HostStyle -> bool) (e : Engine) (sig sig' : Signal) :
  In sig [Scroll; Resize; Mutation] -> In sig' [Scroll; Resize; Mutation] ->
  handle f sig' (handle f sig e) = handle f sig e.
Proof.
  intros Hs Hs'.
  assert (E : forall s, In s [Scroll; Resize; Mutation] ->
                        forall e0, handle f s e0 = relocate f e0).
  { intros s [<- | [<- | [<- | []]]] e0; reflexivity. }
  rewrite !(E _ Hs'), !(E _ Hs). unfold relocate. cbn [host dragging sx sy startRight startBottom].
  f_equal; now rewrite !ensureVisible_style.
Qed.

(** X19, for a scroll after a resize on a page with a covered lower half. *)
Lemma relocate_stable_witness :
  let lowerCovered (p : HostStyle) :=
    match bottom p with Some _ => false | None => true end in
  host (handle lowerCovered Scroll (handle lowerCovered Resize injected)) = topRight.
Proof.
  cbv zeta.
  rewrite (relocate_stable _ injected Resize Scroll); [reflexivity | cbn; tauto | cbn; tauto].
Defined.

Lemma searchOrder_insetsOk (p : HostStyle) : In p searchOrder -> insetsOk p.
Proof.
  cbn. intros H.
  repeat (destruct H as [<- | H]; [repeat split; cbn; lia|]).
  destruct H.
Qed.

Lemma relocate_invariant (f : HostStyle -> bool) (e : Engine) :
  engineInvariant (relocate f e).
Proof.
  split; cbn [relocate host dragging].
  - apply searchOrder_insetsOk, ensureVisible_in.
  - intros _. apply ensureVisible_in.
Qed.

Lemma handle_invariant (f : HostStyle -> bool) (sig : Signal) (e : Engine) :
  engineInvariant e -> engineInvariant (handle f sig e).
Proof.
  intros [Hins Hrest]. destruct sig; cbn [handle];
    try apply relocate_invariant.
  - split; [exact Hins | discriminate].
  - unfold onDrag. destruct (dragging e) eqn:Hd; cbn [negb];
      [|split; [assumption | intros E; apply Hrest; congruence]].
    destruct Hins as (_ & Hl & _ & Ht).
    split; [|cbn [dragging]; congruence].
    repeat split; cbn [host right left bottom top insetOk]; try assumption; lia.
  - destruct (dragging e) eqn:Hd; [apply relocate_invariant|].
    split; [assumption | intros E; apply Hrest; congruence].
Qed.

(** X20. After any run of the listeners, whatever the page does to the
    hit-test in between, no inset of the host is negative, and whenever
    no drag is in progress the host is at one of the nine candidate
    positions. *)
Theorem engine_invariant (sigs : list ((HostStyle -> bool) * Signal)) :
  engineInvariant (handleAll sigs injected).
Proof.
  assert (H : forall e, engineInvariant e -> engineInvariant (handleAll sigs e)).
  { induction sigs as [|[f sig] rest IH]; intros e He; [exact He|].
    cbn [handleAll]. apply IH. now apply handle_invariant. }
  apply H. split.
  - repeat split; cbn; lia.
  - intros _. cbn. tauto.
Qed.

(** X21. A drag follows the pointer without drift: after mouse-down,
    the right and bottom insets are those the host had at mouse-down (16
    for an inset that was auto) plus the distance the pointer has gone
    left and up, clamped at zero, so the position depends on the last
    pointer position only; left and top keep whatever they were; a move
    with no mouse-down before it changes nothing. *)
Theorem drag_follows_pointer
    (f g h : HostStyle -> bool) (e : Engine) (x0 y0 x1 y1 x2 y2 : Z) :
  let down := handle f (MouseDown x0 y0) e in
  let e1 := handle g (MouseMove x1 y1) down in
  right (host e1) = Some (Z.max 0 (pxOr16 (right (host e)) + (x0 - x1))) /\
  bottom (host e1) = Some (Z.max 0 (pxOr16 (bottom (host e)) + (y0 - y1))) /\
  left (host e1) = left (host e) /\
  top (host e1) = top (host e) /\
  handle h (MouseMove x2 y2) e1 = handle h (MouseMove x2 y2) down /\
  (dragging e = false -> handle g (MouseMove x1 y1) e = e).
Proof.
  cbv zeta. cbn [handle onDown onDrag dragging negb host right bottom left top
                 startRight startBottom sx sy].
  repeat split. intros Hd. unfold onDrag. now rewrite Hd.
Qed.

(** X21, dragging the host from the bottom-left corner: the right inset
    is set beside the left one. *)
Lemma drag_follows_pointer_witness :
  let e := relocate (fun p => match right p with Some _ => false | None => true end)
             injected in
  host e = bottomLeft /\
  host (handle (fun _ => true) (MouseMove 90 80)
          (handle (fun _ => true) (MouseDown 100 100) e))
  = {| right := Some 26%Z; left := Some 16%Z; bottom := Some 36%Z; top := None |} /\
  handle (fun _ => true) (MouseMove 90 80) e = e.
Proof.
  cbv zeta. split; [reflexivity | split; [reflexivity|]].
  apply (drag_follows_pointer (fun _ => true) (fun _ => true) (fun _ => true)
           (relocate (fun p => match right p with Some _ => false | None => true end)
              injected) 100 100 90 80 0 0).
  reflexivity.
Defined.

End PlacementExtra.

(** ** Escaping, further *)

Lemma escapeHtml_app (a b : jsstring) :
  escapeHtml (a ++ b) = escapeHtml a ++ escapeHtml b.
Proof.
  induction a as [|c a IH]; [reflexivity|]. cbn [app escapeHtml].
  destruct (entity c); rewrite IH; [now rewrite app_assoc | reflexivity].
Qed.

(** The entity table, entry by entry. *)
Lemma entity_table (c : ascii) :
  (c = amp /\ entity c = Some (lit "&amp;")) \/
  (c = "<"%char /\ entity c = Some (lit "&lt;")) \/
  (c = ">"%char /\ entity c = Some (lit "&gt;")) \/
  (c = quot /\ entity c = Some (lit "&quot;")) \/
  (c = apos /\ entity c = Some (lit "&#39;")) \/
  (special c = false /\ entity c = None).
Proof.
  unfold entity, special, markup.
  change (Ascii.eqb c "&") with (Ascii.eqb c amp).
  destruct (Ascii.eqb c amp) eqn:E1; [apply Ascii.eqb_eq in E1; tauto|].
  destruct (Ascii.eqb c "<") eqn:E2; [apply Ascii.eqb_eq in E2; tauto|].
  destruct (Ascii.eqb c ">") eqn:E3; [apply Ascii.eqb_eq in E3; tauto|].
  destruct (Ascii.eqb c quot) eqn:E4; [apply Ascii.eqb_eq in E4; tauto|].
  destruct (Ascii.eqb c apos) eqn:E5; [apply Ascii.eqb_eq in E5; tauto|].
  repeat right. split; reflexivity.
Qed.

Lemma special_amp_false (c : ascii) : special c = false -> c <> amp.
Proof.
  unfold special. intros H ->. discriminate.
Qed.

(** X22. escapeHtml loses nothing: two different strings are never
    escaped to the same string. *)
Theorem escapeHtml_injective (a b : jsstring) :
  escapeHtml a = escapeHtml b -> a = b.
Proof.
  revert b. induction a as [|c a IH]; intros b H.
  - destruct b as [|d b]; [reflexivity|]. cbn [escapeHtml] in H.
    destruct (entity_table d) as [[_ E] | [[_ E] | [[_ E] | [[_ E] | [[_ E] | [_ E]]]]]];
      rewrite E in H; discriminate.
  - destruct b as [|d b]; cbn [escapeHtml] in H.
    + destruct (entity_table c) as [[_ E] | [[_ E] | [[_ E] | [[_ E] | [[_ E] | [_ E]]]]]];
        rewrite E in H; discriminate.
    + destruct (entity_table c) as [[Hc E] | [[Hc E] | [[Hc E] | [[Hc E] | [[Hc E] | [Hc E]]]]]];
        destruct (entity_table d) as [[Hd E'] | [[Hd E'] | [[Hd E'] | [[Hd E'] | [[Hd E'] | [Hd E']]]]]];
        rewrite E, E' in H; cbn in H;
        try discriminate;
        try (injection H as H; subst c d; f_equal; now apply IH);
        try (injection H as Hh H; exfalso;
             first [ apply (special_amp_false _ Hc); now rewrite Hh
                   | apply (special_amp_false _ Hd); now rewrite <- Hh ]).
      injection H as -> H. f_equal. now apply IH.
Qed.

(** X22, on two titles. *)
Lemma escapeHtml_injective_witness : lit "a<b" = lit "a<b".
Proof. apply escapeHtml_injective. reflexivity. Defined.

Lemma escapeHtml_length (s : jsstring) :
  List.length s <= List.length (escapeHtml s) /\
  (existsb special s = true -> List.length s < List.length (escapeHtml s)).
Proof.
  induction s as [|c s [IH1 IH2]]; [split; [cbn; lia | discriminate]|].
  cbn [escapeHtml existsb List.length].
  destruct (entity_table c) as [[Hc E] | [[Hc E] | [[Hc E] | [[Hc E] | [[Hc E] | [Hc E]]]]]];
    rewrite E;
    try (rewrite length_app; cbn [lit list_ascii_of_string List.length];
         split; intros; lia).
  rewrite Hc. cbn [orb List.length]. split; [lia|].
  intros H. specialize (IH2 H). lia.
Qed.

(** X23. escapeHtml works character by character: it distributes over
    concatenation, never shortens a string, and returns its argument
    unchanged exactly when the argument has none of the five characters
    it rewrites. *)
Theorem escapeHtml_fixed_points (a b : jsstring) :
  escapeHtml (a ++ b) = escapeHtml a ++ escapeHtml b /\
  List.length a <= List.length (escapeHtml a) /\
  (escapeHtml a = a <-> existsb special a = false).
Proof.
  split; [apply escapeHtml_app | split; [apply escapeHtml_length|]].
  split.
  - intros E. destruct (existsb special a) eqn:Hs; [|reflexivity].
    apply (proj2 (escapeHtml_length a)) in Hs. rewrite E in Hs. lia.
  - induction a as [|c a IH]; [reflexivity|].
    cbn [existsb escapeHtml]. intros H. apply orb_false_iff in H as [Hc Ha].
    destruct (entity_table c) as [[-> E] | [[-> E] | [[-> E] | [[-> E] | [[-> E] | [_ E]]]]]];
      try discriminate.
    rewrite E. f_equal. now apply IH.
Qed.

(** ** Button life cycle (content.js:257-298) *)

Module FabFacts.
Import Fab.

Lemma inBody_single (b : nat) (st : State) :
  attached st = [b] -> inBody b st = true.
Proof. unfold inBody. intros ->. cbn. now rewrite Nat.eqb_refl. Qed.

Lemma ensureFab_oneButton (st : State) :
  oneButton st ->
  exists b, tldrBtn (ensureFab st) = Some b /\ attached (ensureFab st) = [b].
Proof.
  unfold ensureFab. intros [E | (b & Hb & E)].
  - destruct (tldrBtn st) as [b|].
    + unfold inBody. rewrite E. cbn. eexists. split; reflexivity.
    + rewrite E. cbn. eexists. split; reflexivity.
  - rewrite Hb, (inBody_single b st E). now exists b.
Qed.

Lemma ensureFab_created (st : State) :
  let st' := {| SRC_ENABLED := SRC_ENABLED st; tldrBtn := Some (nextId st);
                attached := attached st ++ [nextId st];
                overlayOpen := overlayOpen st; nextId := S (nextId st) |} in
  ensureFab st' = st'.
Proof.
  cbv zeta. unfold ensureFab. cbn [tldrBtn]. unfold inBody. cbn [attached].
  rewrite existsb_app. cbn [existsb]. now rewrite Nat.eqb_refl, orb_true_r.
Qed.

Lemma ensureFab_idem (st : State) : ensureFab (ensureFab st) = ensureFab st.
Proof.
  destruct (tldrBtn st) as [b|] eqn:Hb.
  - destruct (inBody b st) eqn:Hin.
    + assert (E : ensureFab st = st) by (unfold ensureFab; now rewrite Hb, Hin).
      now rewrite !E.
    + assert (E : ensureFab st
                  = {| SRC_ENABLED := SRC_ENABLED st; tldrBtn := Some (nextId st);
                       attached := attached st ++ [nextId st];
                       overlayOpen := overlayOpen st; nextId := S (nextId st) |})
        by (unfold ensureFab; now rewrite Hb, Hin).
      rewrite !E. apply ensureFab_created.
  - assert (E : ensureFab st
                = {| SRC_ENABLED := SRC_ENABLED st; tldrBtn := Some (nextId st);
                     attached := attached st ++ [nextId st];
                     overlayOpen := overlayOpen st; nextId := S (nextId st) |})
      by (unfold ensureFab; now rewrite Hb).
    rewrite !E. apply ensureFab_created.
Qed.

Lemma removeFab_clears (st : State) :
  oneButton st ->
  attached (removeFab st) = [] /\ tldrBtn (removeFab st) = None
  /\ overlayOpen (removeFab st) = false.
Proof.
  unfold removeFab. cbn [attached tldrBtn overlayOpen].
  intros [E | (b & Hb & E)]; rewrite E.
  - now destruct (tldrBtn st).
  - rewrite Hb. cbn. now rewrite Nat.eqb_refl.
Qed.

Lemma step_oneButton (st : State) (ev : Ev) : oneButton st -> oneButton (step st ev).
Proof.
  intros H. destruct ev as [v | area change | | | b]; cbn [step].
  - unfold onLoaded. cbn [SRC_ENABLED setFlag].
    destruct (is_truthy v); [|exact H].
    right. now apply ensureFab_oneButton.
  - unfold onChanged. destruct change as [v|]; [|exact H].
    destruct (jsstring_eqb area (lit "sync")); [|exact H].
    cbn [SRC_ENABLED setFlag]. destruct (is_truthy v).
    + right. now apply ensureFab_oneButton.
    + left. now apply removeFab_clears.
  - exact H.
  - exact H.
  - destruct H as [E | (x & Hx & E)]; unfold oneButton; cbn [attached tldrBtn];
      rewrite E; cbn; [now left|].
    destruct (Nat.eqb b x); cbn; [now left | right; now exists x].
Qed.

Lemma run_oneButton (evs : list Ev) : oneButton (run evs).
Proof.
  unfold run.
  assert (H : forall st, oneButton st -> oneButton (fold_left step evs st)).
  { induction evs as [|ev evs IH]; intros st Hst; [exact Hst|].
    cbn [fold_left]. apply IH. now apply step_oneButton. }
  apply H. now left.
Qed.

(** X24. Whatever sequence of storage callbacks, overlay events and page
    interference occurs, the page never holds more than one button of
    the script, and a button that is in the page is the one the script
    holds in its variable. *)
Theorem at_most_one_button (evs : list Ev) :
  List.length (attached (run evs)) <= 1 /\
  (forall b, In b (attached (run evs)) -> tldrBtn (run evs) = Some b).
Proof.
  destruct (run_oneButton evs) as [E | (b & Hb & E)]; rewrite E; cbn.
  - split; [lia | intros b []].
  - split; [lia | intros x [<- | []]; exact Hb].
Qed.

(** X25. A change of the key in the sync area to a truthy value leaves
    exactly one button in the page; a change to a falsy value leaves no
    button and no overlay; a change in another area, or one that does
    not touch the key, changes nothing.  Calling ensureFab twice is the
    same as calling it once. *)
Theorem storage_change_applies (evs : list Ev) (v : JsValue) (area : jsstring) :
  let st := run evs in
  (is_truthy v = true ->
   let st' := step st (Changed (lit "sync") (Some v)) in
   SRC_ENABLED st' = true /\
   exists b, tldrBtn st' = Some b /\ attached st' = [b]) /\
  (is_truthy v = false ->
   let st' := step st (Changed (lit "sync") (Some v)) in
   SRC_ENABLED st' = false /\ attached st' = [] /\ tldrBtn st' = None
   /\ overlayOpen st' = false) /\
  step st (Changed area None) = st /\
  (jsstring_eqb area (lit "sync") = false ->
   step st (Changed area (Some v)) = st) /\
  ensureFab (ensureFab st) = ensureFab st.
Proof.
  cbv zeta. pose proof (run_oneButton evs) as H.
  set (st := run evs) in *. clearbody st.
  split; [|split; [|split; [|split]]].
  - intros Hv. cbn [step]. unfold onChanged.
    change (jsstring_eqb (lit "sync") (lit "sync")) with true. cbn iota.
    cbn [SRC_ENABLED setFlag]. rewrite Hv.
    split; [|apply (ensureFab_oneButton (setFlag true st)); exact H].
    unfold ensureFab. cbn [tldrBtn setFlag].
    destruct (tldrBtn st); [destruct (inBody _ _)|]; reflexivity.
  - intros Hv. cbn [step]. unfold onChanged.
    change (jsstring_eqb (lit "sync") (lit "sync")) with true. cbn iota.
    cbn [SRC_ENABLED setFlag]. rewrite Hv.
    split; [reflexivity | apply (removeFab_clears (setFlag false st)); exact H].
  - reflexivity.
  - intros Ha. cbn [step]. unfold onChanged. now rewrite Ha.
  - apply ensureFab_idem.
Qed.

(** X25, disabling after the button was created and an overlay shown. *)
Lemma storage_change_applies_witness :
  let st := step (run [Loaded (VBool true); OverlayShown])
              (Changed (lit "sync") (Some (VBool false))) in
  SRC_ENABLED st = false /\ attached st = [] /\ tldrBtn st = None
  /\ overlayOpen st = false.
Proof.
  cbv zeta.
  apply (proj1 (proj2 (storage_change_applies
                          [Loaded (VBool true); OverlayShown]
                          (VBool false) (lit "sync")))).
  reflexivity.
Defined.

End FabFacts.

(** ** Popup (popup.js) *)

Module PopupFacts.
Import Popup.

(** X26. A click in the popup flips the preference, writes the new
    value to storage and renders it; two clicks bring the preference
    back; and reading the preference back from storage, as the popup
    does when it opens, gives the state the click left. *)
Theorem click_toggles_and_persists (st : State) :
  enabled (click st) = negb (enabled st) /\
  stored (click st) = Some (VBool (enabled (click st))) /\
  datasetOn (click st) = Some (boolText (enabled (click st))) /\
  ariaPressed (click st) = Some (boolText (enabled (click st))) /\
  enabled (click (click st)) = enabled st /\
  load (click st) = click st.
Proof.
  unfold click, setEnabled, load, render.
  cbn [enabled stored datasetOn ariaPressed statusText is_truthy].
  repeat split. apply negb_involutive.
Qed.

(** X27. The two scripts agree: the value a click in the popup stores is
    read by the listener of the content script as the same preference;
    at start-up both read the key with the default true, so with nothing
    stored both start enabled, and whatever is stored the content script
    starts with the preference the popup shows. *)
Theorem popup_and_content_script_agree (pst : State) (fst : Fab.State) :
  Fab.SRC_ENABLED (Fab.onChanged (lit "sync") (stored (click pst)) fst)
  = enabled (click pst) /\
  enabled (load (initial None)) = true /\
  Fab.SRC_ENABLED (Fab.onStartup None fst) = true /\
  (forall stored0,
     Fab.SRC_ENABLED (Fab.onStartup stored0 fst) = enabled (load (initial stored0))).
Proof.
  assert (Hl : forall v, Fab.SRC_ENABLED (Fab.onLoaded v fst) = is_truthy v).
  { intros v. unfold Fab.onLoaded. cbn [Fab.SRC_ENABLED Fab.setFlag].
    destruct (is_truthy v); [|reflexivity].
    unfold Fab.ensureFab. cbn [Fab.tldrBtn Fab.setFlag].
    destruct (Fab.tldrBtn fst); [destruct (Fab.inBody _ _)|]; reflexivity. }
  split; [|split; [|split]].
  - unfold click, setEnabled, render. cbn [stored enabled].
    unfold Fab.onChanged.
    change (jsstring_eqb (lit "sync") (lit "sync")) with true. cbn iota.
    cbn [Fab.SRC_ENABLED Fab.setFlag is_truthy].
    destruct (negb (enabled pst)); [|reflexivity].
    unfold Fab.ensureFab. cbn [Fab.tldrBtn Fab.setFlag].
    destruct (Fab.tldrBtn fst); [destruct (Fab.inBody _ _)|]; reflexivity.
  - reflexivity.
  - unfold Fab.onStartup. apply Hl.
  - intros stored0. unfold Fab.onStartup. rewrite Hl. reflexivity.
Qed.

End PopupFacts.

(** ** Expander (content.js:48-60) *)

Lemma clickedFrom_spec (i j : nat) (nodes : list Control) :
  In j (clickedFrom i nodes) <->
  exists k n, j = i + k /\ nth_error nodes k = Some n /\ isExpander n = true.
Proof.
  revert i. induction nodes as [|n nodes IH]; intros i; cbn [clickedFrom].
  - split; [intros [] | intros (k & m & _ & H & _); destruct k; discriminate].
  - split.
    + intros H.
      assert (Hrest : In j (clickedFrom (S i) nodes) ->
                      exists k m, j = i + k /\ nth_error (n :: nodes) k = Some m
                                  /\ isExpander m = true).
      { intros Hr. apply IH in Hr as (k & m & -> & Hk & Hm).
        exists (S k), m. repeat split; [lia | exact Hk | exact Hm]. }
      destruct (isExpander n) eqn:E; [|now apply Hrest].
      destruct H as [<- | H]; [|now apply Hrest].
      exists 0, n. repeat split; [lia | exact E].
    + intros (k & m & -> & Hk & Hm). destruct k as [|k]; cbn in Hk.
      * injection Hk as ->. rewrite Hm. left. lia.
      * assert (In (i + S k) (clickedFrom (S i) nodes)).
        { apply IH. exists k, m. repeat split; [lia | exact Hk | exact Hm]. }
        destruct (isExpander n); [now right | assumption].
Qed.

Lemma clickedFrom_lower (i j : nat) (nodes : list Control) :
  In j (clickedFrom i nodes) -> i <= j.
Proof. intros H. apply clickedFrom_spec in H as (k & n & -> & _). lia. Qed.

Lemma clickedFrom_NoDup (i : nat) (nodes : list Control) :
  NoDup (clickedFrom i nodes).
Proof.
  revert i. induction nodes as [|n nodes IH]; intros i; cbn [clickedFrom];
    [constructor|].
  destruct (isExpander n); [|apply IH].
  constructor; [|apply IH].
  intros H. apply clickedFrom_lower in H. lia.
Qed.

Lemma isExpander_iff (n : Control) :
  isExpander n = true <->
  exists lbl, In lbl expansionLabels /\
    containsCI (trim (orElse (control_text n) (optStr (aria_label n)))) lbl.
Proof.
  unfold isExpander, controlLabel. cbv zeta.
  rewrite andb_true_iff, existsb_exists. split.
  - intros [_ (lbl & Hin & H)]. exists lbl. split; [exact Hin|].
    now apply containsCI_iff.
  - intros (lbl & Hin & H). apply containsCI_iff in H.
    split; [|now exists lbl].
    destruct (toLowerCase (trim (orElse (control_text n) (optStr (aria_label n)))));
      [|reflexivity].
    exfalso. apply includes_iff, Sub_nil_inv in H. subst lbl.
    cbn in Hin. repeat (destruct Hin as [Hin | Hin]; [discriminate|]). destruct Hin.
Qed.

(** X28. The expander clicks a node exactly when its label (the inner
    text if that is not empty, else the aria label), once trimmed,
    contains one of the eight expansion phrases without regard to case;
    each such node is clicked once. *)
Theorem expandCollapsers_clicks (nodes : list Control) (i : nat) :
  (In i (expandCollapsers nodes) <->
   exists n, nth_error nodes i = Some n /\
     exists lbl, In lbl expansionLabels /\
       containsCI (trim (orElse (control_text n) (optStr (aria_label n)))) lbl) /\
  NoDup (expandCollapsers nodes).
Proof.
  split; [|apply clickedFrom_NoDup].
  unfold expandCollapsers. rewrite clickedFrom_spec. split.
  - intros (k & n & -> & Hk & Hn). exists n. split; [exact Hk|].
    now apply isExpander_iff.
  - intros (n & Hk & Hn). exists i, n. repeat split; [exact Hk|].
    now apply isExpander_iff.
Qed.

(** X28, on four sample controls: a node with inner text is judged by
    that text alone, and a blank inner text hides the aria label. *)
Example expandCollapsers_sample : expandCollapsers sampleControls = [1; 2].
Proof. vm_compute. reflexivity. Qed.

(** ** The other two extractors *)

(** X29. An exception of Readability is handled differently by the
    variants: the extractor of the shadow-DOM variant lets it through,
    and its click handler shows the message of that exception; the chain
    of content.js and the simple extractor swallow it, so the chain
    fails with ExtractionFailed or returns, and the simple extractor
    always returns. *)
Theorem readability_exception_by_variant
    (pg : Page) (backend : Backend) (e : JsError) :
  readability pg = ParseThrows e ->
  outcome (extractArticleText_readability pg) = Throw e /\
  trace (onButtonClick pg backend)
  = [EvButtonBusy; EvSleep 400; EvReadability;
     EvShowOverlay (headerHtml "Summary Error") (VStr (errorText e));
     EvButtonRestored] /\
  (outcome (extractArticleText pg) = Throw ExtractionFailed \/
   exists r, outcome (extractArticleText pg) = Return r) /\
  outcome (extractSimple pg)
  = Return {| title := docTitle pg; text := trim (simple_main pg) |}.
Proof.
  intros H. split; [|split; [|split]].
  - unfold extractArticleText_readability. now rewrite H.
  - unfold onButtonClick, activation, activationBody,
      extractArticleText_readability.
    rewrite H. reflexivity.
  - destruct (strategies_shape pg) as (evs & ttl & held & Hs & _ & _).
    rewrite (extractArticleText_unfold pg _ _ _ Hs). cbn [outcome snd].
    destruct (truthy held); [right; eexists; reflexivity | now left].
  - unfold extractSimple. rewrite H. reflexivity.
Qed.

(** X29, on the sample page on which Readability throws. *)
Lemma readability_exception_by_variant_witness :
  outcome (extractArticleText_readability brokenPage)
  = Throw (TypeError "Cannot read properties of null") /\
  outcome (extractSimple brokenPage)
  = Return {| title := lit "Broken"; text := lit "Navigation only" |}.
Proof.
  destruct (readability_exception_by_variant brokenPage (always summaryResponse)
              (TypeError "Cannot read properties of null") eq_refl)
    as (H1 & _ & _ & H4).
  split; [exact H1 | exact H4].
Defined.

(** X30. The simple extractor always returns.  Its text is the trimmed
    text of Readability when that is not empty and the trimmed inner text
    of the main element otherwise, so it is empty only when both are
    blank; its title is the title of Readability when that is not empty
    and the document title otherwise. *)
Theorem extractSimple_falls_back (pg : Page) :
  extractSimple pg
  = ([EvReadability],
     Return {| title := orElse (readabilityTitle pg) (docTitle pg);
               text := orElse (trim (readabilityText pg))
                         (trim (simple_main pg)) |}).
Proof.
  unfold extractSimple, readabilityText, readabilityTitle.
  destruct (readability pg) as [e| |[atitle|] [tc|]]; cbn [optStr truthy];
    try reflexivity.
  all: try (destruct atitle as [|a0 atitle]);
    try (destruct tc as [|c0 tc]);
    cbn [truthy optStr]; cbv [bind emit ret orElse]; cbn [app negb truthy];
    try (destruct (truthy (trim (c0 :: tc))) eqn:Et; cbn [negb]);
    reflexivity.
Qed.
